(** * shift_tiles: shifting and snapping raster tiles to a reference raster

    A shallow embedding of [shift_tiles.py] and the properties of its
    shift search.

    Modelling conventions.
    - Geographic coordinates and the six coefficients of a geotransform are
      exact rationals ([Q]); the source computes them in double precision.
      The one place where the source leaves the rationals is a division by
      zero, which NumPy scalar arithmetic answers with [inf] or [nan]
      instead of raising: [npfloat] keeps exactly that distinction.
    - Pixel samples are bytes: the tiles are Byte rasters (line 191 creates
      the new one as [GDT_Byte], and 255 is the no-data value of line 60).
      Line 60 is therefore arithmetic on [uint8] arrays, which wraps modulo
      256, summed by [np.sum] in an unsigned 64-bit accumulator; both
      wrap-arounds are written out. An array carries its shape next to its
      samples, as [numpy.ndarray] does.
    - Python exceptions are the [Raise] outcomes of the [result] type; the
      source has no [try], so every exception propagates to the caller. *)

From Stdlib Require Import ZArith QArith Qround Qfield Lia Lqa.
From Stdlib Require Import Strings.Byte.
From stdpp Require Import base option list strings gmap.

Local Open Scope Z_scope.

(** ** Exceptions and results *)

Inductive exn : Type :=
  | ValueError        (* int() of a NaN *)
  | OverflowError     (* int() of an infinity *)
  | OutOfBoundsError  (* a window read past the band's extent *)
  | OpenError         (* a raster file that cannot be opened *)
  | DegenerateTransform.
      (* of the specification's error taxonomy; the source never raises it *)

Inductive result (A : Type) : Type :=
  | Ok (a : A)
  | Raise (e : exn).
Arguments Ok {A} a.
Arguments Raise {A} e.

(** Sequencing stops at the first exception, as Python does. *)
#[global] Instance result_bind : MBind result := fun A B k m =>
  match m with
  | Ok a => k a
  | Raise e => Raise e
  end.

(** ** Direction flags (lines 28-31)

    Kept in a module of their own: [S] and [N] are taken in Rocq. *)

Module Dir.
Definition W : Z := Z.shiftl 1 0.
Definition N : Z := Z.shiftl 1 1.
Definition E : Z := Z.shiftl 1 2.
Definition S : Z := Z.shiftl 1 3.
End Dir.

(** ** Coordinate transform *)

(** The 6-tuple returned by [GetGeoTransform]; [gtK] is [gt[K]]. *)
Record GeoTransform : Type := mkGT
  { gt0 : Q; gt1 : Q; gt2 : Q; gt3 : Q; gt4 : Q; gt5 : Q }.

(** A NumPy double as far as the program can tell values apart: a finite
    number, an infinity, or a NaN. *)
Inductive npfloat : Type :=
  | Finite (q : Q)
  | Inf
  | NaN.

(** [num / den] on NumPy scalars: a zero divisor gives [nan] for [0/0] and
    an infinity otherwise (with a warning, not an exception). *)
Definition np_divide (num den : Q) : npfloat :=
  if Qeq_bool den 0 then (if Qeq_bool num 0 then NaN else Inf)
  else Finite (num / den).

Definition calc_xy (gt : GeoTransform) (col row : Q) : Q * Q :=
  let x := (gt0 gt + col * gt1 gt + row * gt2 gt)%Q in
  let y := (gt3 gt + col * gt4 gt + row * gt5 gt)%Q in
  (x, y).

Definition calc_colrow (gt : GeoTransform) (x y : Q) : npfloat * npfloat :=
  let col := np_divide (x * gt5 gt - y * gt2 gt - gt0 gt * gt5 gt + gt2 gt * gt3 gt)%Q
                       (gt1 gt * gt5 gt - gt2 gt * gt4 gt)%Q in
  let row := np_divide (x * gt4 gt - y * gt1 gt - gt0 gt * gt4 gt + gt1 gt * gt3 gt)%Q
                       (gt2 gt * gt4 gt - gt1 gt * gt5 gt)%Q in
  (col, row).

(** [int(x)] for [x] an element of [np.floor(...)]. The value floored here
    is the exact quotient; the source floors the double it computed, which
    rounding can carry across an integer, one cell away from this floor. *)
Definition int_floor (x : npfloat) : result Z :=
  match x with
  | Finite q => Ok (Qfloor q)
  | Inf => Raise OverflowError
  | NaN => Raise ValueError
  end.

(** The determinant the specification calls [c1*c5 - c2*c4]. *)
Definition det (gt : GeoTransform) : Q := (gt1 gt * gt5 gt - gt2 gt * gt4 gt)%Q.

(** Two coordinates agree when both are finite and equal as rationals. *)
Definition np_eq (a : npfloat) (q : Q) : Prop :=
  match a with
  | Finite p => (p == q)%Q
  | _ => False
  end.

(** ** Pixel arrays *)

(** A sample of a Byte raster, and its value. *)
Definition uint8 : Type := Byte.byte.

Definition uint8_val (b : uint8) : Z := Z.of_N (Byte.to_N b).

(** [np.uint8(z)]: the byte that is [z] modulo 256. *)
Definition as_uint8 (z : Z) : uint8 :=
  default Byte.x00 (Byte.of_N (Z.to_N (z mod 256))).

(** The result of an operation in [uint8], and of one in [uint64]. *)
Definition wrap8 (z : Z) : Z := z mod 2 ^ 8.
Definition wrap64 (z : Z) : Z := z mod 2 ^ 64.

(** A two-dimensional [numpy.ndarray] of [uint8]: [shape0] rows of [shape1]
    samples. *)
Record ndarray : Type := mkArray
  { shape0 : nat; shape1 : nat; data : list (list uint8) }.

(** The rows of an array, as the values of its samples. *)
Definition rows (a : ndarray) : list (list Z) := map (map uint8_val) (data a).

(** [np.asarray(l, dtype=np.uint8)]. *)
Definition asarray (l : list (list Z)) : ndarray :=
  mkArray (length l) (length (default [] (head l))) (map (map as_uint8) l).

(** The array is as its shape says. *)
Definition wf_array (a : ndarray) : Prop :=
  length (rows a) = shape0 a /\ Forall (fun row => length row = shape1 a) (rows a).

(** Python's normalisation of one bound of a slice over [n] elements. *)
Definition slice_index (n i : Z) : Z :=
  if i <? 0 then Z.max (i + n) 0 else Z.min i n.

Definition slice_len (n : nat) (start stop : Z) : nat :=
  Z.to_nat (slice_index (Z.of_nat n) stop - slice_index (Z.of_nat n) start).

(** [l[start:stop]] for a sequence of [n] elements. *)
Definition py_slice {A} (n : nat) (l : list A) (start stop : Z) : list A :=
  take (slice_len n start stop) (drop (Z.to_nat (slice_index (Z.of_nat n) start)) l).

(** [a[r0:r1, c0:c1]]. *)
Definition slice2 (a : ndarray) (r0 r1 c0 c1 : Z) : ndarray :=
  {| shape0 := slice_len (shape0 a) r0 r1;
     shape1 := slice_len (shape1 a) c0 c1;
     data := map (fun row => py_slice (shape1 a) row c0 c1)
               (py_slice (shape0 a) (data a) r0 r1) |}.

(** Element-wise operations of line 60, on the values of [uint8] arrays:
    a subtraction gives a [uint8] array and wraps modulo 256; [np.sum] of a
    [uint8] array accumulates in [uint64]. The operands have the same shape
    there (the window is read with the shape of [outa]), so no broadcasting
    between arrays takes place. *)
Definition np_less (a : list (list Z)) (v : Z) : list (list bool) :=
  map (map (fun x => x <? v)) a.

Definition np_subtract_scalar (a : list (list Z)) (v : Z) : list (list Z) :=
  map (map (fun x => wrap8 (x - v))) a.

Definition np_subtract (a b : list (list Z)) : list (list Z) :=
  zip_with (zip_with (fun x y => wrap8 (x - y))) a b.

Definition np_where (c : list (list bool)) (a : list (list Z)) (b : Z)
  : list (list Z) :=
  zip_with (zip_with (fun (ci : bool) x => if ci then x else b)) c a.

Definition np_sum (a : list (list Z)) : Z := wrap64 (foldr Z.add 0 (concat a)).

(** ** The raster collaborator *)

(** A raster band: its samples and its no-data value, if one is set. *)
Record Band : Type := mkBand
  { band_array : ndarray; GetNoDataValue : option Z }.

Definition XSize (b : Band) : nat := shape1 (band_array b).
Definition YSize (b : Band) : nat := shape0 (band_array b).

(** [band.ReadAsArray()]: the whole band. *)
Definition ReadAsArray (b : Band) : ndarray := band_array b.

(** Modelled from the spec: [band.ReadAsArray(xoff, yoff, xsize, ysize)] is
    GDAL's, not this repository's. It is the [readWindow] of the
    specification: it returns the [ysize] by [xsize] samples whose upper
    left corner is [(xoff, yoff)], and fails when that window extends
    beyond the band's extent. *)
Definition ReadAsArray_window (b : Band) (xoff yoff : Z) (xsize ysize : nat)
  : result ndarray :=
  if decide (0 <= xoff /\ 0 <= yoff /\
             xoff + Z.of_nat xsize <= Z.of_nat (XSize b) /\
             yoff + Z.of_nat ysize <= Z.of_nat (YSize b))
  then Ok {| shape0 := ysize;
             shape1 := xsize;
             data := map (fun row => take xsize (drop (Z.to_nat xoff) row))
                       (take ysize (drop (Z.to_nat yoff) (data (band_array b)))) |}
  else Raise OutOfBoundsError.

(** ** Shift search *)

(** [range(n)]. *)
Definition range (n : nat) : list Z := map Z.of_nat (seq 0 n).

(** A [for] loop whose body may [return]: [Ok (Some v)] is a [return v]
    inside the body, [Ok None] falls through to the next iteration, and
    running off the end leaves the function to continue after the loop. *)
Fixpoint for_in {A R} (xs : list A) (body : A -> result (option R))
  : result (option R) :=
  match xs with
  | [] => Ok None
  | x :: xs' =>
      match body x with
      | Raise e => Raise e
      | Ok (Some v) => Ok (Some v)
      | Ok None => for_in xs' body
      end
  end.

(** [a - b] on the two-element arrays of [calc_xy]. *)
Definition xy_sub (a b : Q * Q) : Q * Q := ((a.1 - b.1)%Q, (a.2 - b.2)%Q).

(** The no-data sentinel of line 60. *)
Definition nodata : Z := 255.

(** Line 60: the array [np.where(outa < 255, outa - 1 - refouta, 0)] and
    its sum [np.sum(np.where(outa < 255, outa - 1 - refouta, 0))]. *)
Definition diffs (outa refouta : ndarray) : list (list Z) :=
  np_where (np_less (rows outa) nodata)
    (np_subtract (np_subtract_scalar (rows outa) 1) (rows refouta)) 0.

Definition diffsum (outa refouta : ndarray) : Z := np_sum (diffs outa refouta).

(** The body of the two loops (lines 57-64) at offsets [coff], [roff]. *)
Definition test_origin (refband : Band) (refgt : GeoTransform) (outa : ndarray)
    (outnwxy : Q * Q) (outnwcrf : Z * Z) (coff roff : Z)
  : result (option (Q * Q)) :=
  let c := outnwcrf.1 + coff in
  let r := outnwcrf.2 + roff in
  refouta ← ReadAsArray_window refband c r (shape1 outa) (shape0 outa);
  if diffsum outa refouta =? 0
  then
    let refcrxy := calc_xy refgt (inject_Z c) (inject_Z r) in
    Ok (Some (xy_sub refcrxy outnwxy))
  else Ok None.

(** Lines 44-49: the margins are cut off only when their sum is truthy. *)
Definition trimmed (outa : ndarray) (skipw skipn skipe skips : Z) : ndarray :=
  let ncols := Z.of_nat (shape1 outa) in
  let nrows := Z.of_nat (shape0 outa) in
  if skipw + skipn + skipe + skips =? 0 then outa
  else slice2 outa skipn (nrows - skips) skipw (ncols - skipe).

Definition calc_shift_skip (refband : Band) (refgt : GeoTransform)
    (outa : ndarray) (outgt : GeoTransform) (skipw skipn skipe skips : Z)
  : result (option (Q * Q)) :=
  let outa := trimmed outa skipw skipn skipe skips in
  let outnwxy := calc_xy outgt (inject_Z skipw) (inject_Z skipn) in
  let outnwcr := calc_colrow refgt outnwxy.1 outnwxy.2 in
  c ← int_floor outnwcr.1;
  r ← int_floor outnwcr.2;
  let outnwcrf := (c, r) in
  for_in (range 2) (fun coff =>
    for_in (range 2) (fun roff =>
      test_origin refband refgt outa outnwxy outnwcrf coff roff)).

(** [shift = ...; if shift is not None: return shift, mask], and otherwise
    the rest of the function. *)
Notation "'attempt' m 'returning' mask 'orelse' k" :=
  (match m with
   | Raise e => Raise e
   | Ok (Some shift) => Ok (Some shift, Some mask)
   | Ok None => k
   end)
  (at level 10, m at level 200, mask at level 200, k at level 200,
   only parsing).

Definition calc_shift (refband : Band) (refgt : GeoTransform)
    (outband : Band) (outgt : GeoTransform)
  : result (option (Q * Q) * option Z) :=
  let outa := ReadAsArray outband in
  attempt calc_shift_skip refband refgt outa outgt 0 0 0 0 returning 0 orelse
  let ncols := Z.of_nat (shape1 outa) in
  let nrows := Z.of_nat (shape0 outa) in
  let skipwe := Z.quot ncols 3 in
  let skipns := Z.quot nrows 3 in
  (* test west *)
  attempt calc_shift_skip refband refgt outa outgt skipwe 0 0 0
    returning Dir.W orelse
  (* test north *)
  attempt calc_shift_skip refband refgt outa outgt 0 skipns 0 0
    returning Dir.N orelse
  (* test east *)
  attempt calc_shift_skip refband refgt outa outgt 0 0 skipwe 0
    returning Dir.E orelse
  (* test south *)
  attempt calc_shift_skip refband refgt outa outgt 0 0 0 skipns
    returning Dir.S orelse
  (* test west, north *)
  attempt calc_shift_skip refband refgt outa outgt skipwe skipns 0 0
    returning Z.lor Dir.W Dir.N orelse
  (* test west, east *)
  attempt calc_shift_skip refband refgt outa outgt skipwe 0 skipwe 0
    returning Z.lor Dir.W Dir.E orelse
  (* test west, south *)
  attempt calc_shift_skip refband refgt outa outgt skipwe 0 0 skipns
    returning Z.lor Dir.W Dir.S orelse
  (* test north, east *)
  attempt calc_shift_skip refband refgt outa outgt 0 skipns skipwe 0
    returning Z.lor Dir.N Dir.E orelse
  (* test north, south *)
  attempt calc_shift_skip refband refgt outa outgt 0 skipns 0 skipns
    returning Z.lor Dir.N Dir.S orelse
  (* test east, south *)
  attempt calc_shift_skip refband refgt outa outgt 0 0 skipwe skipns
    returning Z.lor Dir.E Dir.S orelse
  (* test west, north, east *)
  attempt calc_shift_skip refband refgt outa outgt skipwe skipns skipwe 0
    returning Z.lor (Z.lor Dir.W Dir.N) Dir.E orelse
  (* test west, north, south *)
  attempt calc_shift_skip refband refgt outa outgt skipwe skipns 0 skipns
    returning Z.lor (Z.lor Dir.W Dir.N) Dir.S orelse
  (* test west, east, south *)
  attempt calc_shift_skip refband refgt outa outgt skipwe 0 skipwe skipns
    returning Z.lor (Z.lor Dir.W Dir.E) Dir.S orelse
  (* test north, east, south *)
  attempt calc_shift_skip refband refgt outa outgt 0 skipns skipwe skipns
    returning Z.lor (Z.lor Dir.N Dir.E) Dir.S orelse
  (* test all sides *)
  attempt calc_shift_skip refband refgt outa outgt skipwe skipns skipwe skipns
    returning Z.lor (Z.lor (Z.lor Dir.W Dir.N) Dir.E) Dir.S orelse
  (* failed to calculate shift *)
  Ok (None, None).

(** ** Top-level operation [shift] *)

(** An opened raster file with its single band. *)
Record Raster : Type := mkRaster
  { GetDriver : string;
    GetRasterBand : Band;
    GetGeoTransform : GeoTransform;
    GetProjection : string }.

(** What the program prints. *)
Inductive printed : Type :=
  | PrintStr (s : string)
  | PrintShift (shift : Q * Q) (overlap : option Z).

(** The raster files on disk, by path, and the standard output. *)
Record World : Type := mkWorld
  { files : gmap string Raster; stdout : list printed }.

Definition print (w : World) (p : printed) : World :=
  {| files := files w; stdout := stdout w ++ [p] |}.

Definition write_file (w : World) (path : string) (r : Raster) : World :=
  {| files := <[path := r]> (files w); stdout := stdout w |}.

(** Modelled from the spec: [gdal.Open] is GDAL's. It is the [openRaster] of
    the specification, which fails for a path that is missing. *)
Definition gdal_Open (w : World) (path : string) : result Raster :=
  match files w !! path with
  | Some r => Ok r
  | None => Raise OpenError
  end.

(** Modelled from the spec: [driver.Create] and the setters are GDAL's. A
    created raster has one zero-filled band without a no-data value, the
    identity geotransform and no projection; each setter replaces the one
    attribute it names. *)
Definition Create (driver : string) (xsize ysize : nat) : Raster :=
  {| GetDriver := driver;
     GetRasterBand :=
       mkBand (mkArray ysize xsize (replicate ysize (replicate xsize Byte.x00)))
              None;
     GetGeoTransform := mkGT 0 1 0 0 0 1;
     GetProjection := EmptyString |}.

Definition SetGeoTransform (r : Raster) (gt : GeoTransform) : Raster :=
  {| GetDriver := GetDriver r; GetRasterBand := GetRasterBand r;
     GetGeoTransform := gt; GetProjection := GetProjection r |}.

Definition SetProjection (r : Raster) (p : string) : Raster :=
  {| GetDriver := GetDriver r; GetRasterBand := GetRasterBand r;
     GetGeoTransform := GetGeoTransform r; GetProjection := p |}.

Definition SetNoDataValue (b : Band) (v : option Z) : Band :=
  {| band_array := band_array b; GetNoDataValue := v |}.

Definition WriteArray (b : Band) (a : ndarray) : Band :=
  {| band_array := a; GetNoDataValue := GetNoDataValue b |}.

Definition with_band (r : Raster) (b : Band) : Raster :=
  {| GetDriver := GetDriver r; GetRasterBand := b;
     GetGeoTransform := GetGeoTransform r; GetProjection := GetProjection r |}.

(** [outgt[0] += shift[0]; outgt[3] += shift[1]]. *)
Definition add_shift (gt : GeoTransform) (shift : Q * Q) : GeoTransform :=
  {| gt0 := (gt0 gt + shift.1)%Q; gt1 := gt1 gt; gt2 := gt2 gt;
     gt3 := (gt3 gt + shift.2)%Q; gt4 := gt4 gt; gt5 := gt5 gt |}.

(** Lines 175-197. The band of the new raster is a handle on the raster, so
    the two calls on [newband] update [newrast]; the file appears on disk
    when it is created and holds the final raster after [FlushCache]. *)
Definition shift (refband : Band) (refgt : GeoTransform)
    (outfile newfile : string) (w : World) : result World :=
  outrast ← gdal_Open w outfile;
  let outband := GetRasterBand outrast in
  let outgt := GetGeoTransform outrast in
  so ← calc_shift refband refgt outband outgt;
  let overlap := so.2 in
  match so.1 with
  | None => Ok (print w (PrintStr "Failed to shift"))
  | Some shift =>
      let w := print w (PrintShift shift overlap) in
      let outgt := add_shift outgt shift in
      let driver := GetDriver outrast in
      let newrast := Create driver (XSize outband) (YSize outband) in
      let w := write_file w newfile newrast in
      let newrast := SetGeoTransform newrast outgt in
      let newband := GetRasterBand newrast in
      let newband := SetNoDataValue newband (GetNoDataValue outband) in
      let newband := WriteArray newband (ReadAsArray outband) in
      let newrast := with_band newrast newband in
      let newrast := SetProjection newrast (GetProjection outrast) in
      Ok (write_file w newfile newrast)
  end.

(** ** The algorithm as the specification words it

    These definitions follow the text of the specification, not the source;
    the theorems below compare them with the source's functions. *)

(** The four edges and the OverlapMask of a set of edges. *)
Inductive Edge : Type := WEST | NORTH | EAST | SOUTH.

#[global] Instance Edge_eq_dec : EqDecision Edge.
Proof. solve_decision. Defined.

Definition edge_flag (e : Edge) : Z :=
  match e with
  | WEST => Dir.W
  | NORTH => Dir.N
  | EAST => Dir.E
  | SOUTH => Dir.S
  end.

Definition OverlapMask (es : list Edge) : Z :=
  foldr (fun e m => Z.lor (edge_flag e) m) 0 es.

(** The [k]-element subsets of [l], each in the order of [l], subsets that
    contain an earlier element first. *)
Fixpoint combinations {A} (k : nat) (l : list A) : list (list A) :=
  match k, l with
  | O, _ => [[]]
  | S _, [] => []
  | S k', x :: l' => map (cons x) (combinations k' l') ++ combinations k l'
  end.

(** Every non-empty subset of the edges: by increasing number of excluded
    edges, and for one number in the order West, North, East, South. *)
Definition edge_subsets : list (list Edge) :=
  concat (map (fun k => combinations k [WEST; NORTH; EAST; SOUTH])
              [1; 2; 3; 4]%nat).

(** The margin (west, north, east, south) that excludes the edges [es]. *)
Definition margin (skipWE skipNS : Z) (es : list Edge) : Z * Z * Z * Z :=
  (if bool_decide (WEST ∈ es) then skipWE else 0,
   if bool_decide (NORTH ∈ es) then skipNS else 0,
   if bool_decide (EAST ∈ es) then skipWE else 0,
   if bool_decide (SOUTH ∈ es) then skipNS else 0).

Definition tryShift_margin (tryShift : Z -> Z -> Z -> Z -> result (option (Q * Q)))
    (m : Z * Z * Z * Z) : result (option (Q * Q)) :=
  tryShift m.1.1.1 m.1.1.2 m.1.2 m.2.

(** Return on the first subset whose test succeeds, paired with its mask;
    no match for both fields when the subsets are exhausted. *)
Fixpoint first_subset (tryShift : Z -> Z -> Z -> Z -> result (option (Q * Q)))
    (skipWE skipNS : Z) (subsets : list (list Edge))
  : result (option (Q * Q) * option Z) :=
  match subsets with
  | [] => Ok (None, None)
  | es :: rest =>
      match tryShift_margin tryShift (margin skipWE skipNS es) with
      | Raise e => Raise e
      | Ok (Some shift) => Ok (Some shift, Some (OverlapMask es))
      | Ok None => first_subset tryShift skipWE skipNS rest
      end
  end.

Definition findShift (refband : Band) (refgt : GeoTransform)
    (outband : Band) (outgt : GeoTransform)
  : result (option (Q * Q) * option Z) :=
  let outa := ReadAsArray outband in
  let tryShift := calc_shift_skip refband refgt outa outgt in
  match tryShift 0 0 0 0 with
  | Raise e => Raise e
  | Ok (Some shift) => Ok (Some shift, Some 0)
  | Ok None =>
      let skipWE := Z.of_nat (shape1 outa) / 3 in
      let skipNS := Z.of_nat (shape0 outa) / 3 in
      first_subset tryShift skipWE skipNS edge_subsets
  end.

(** Each output pixel next to the reference pixel at the same place. *)
Definition pixel_pairs (outa refouta : ndarray) : list (Z * Z) :=
  concat (zip_with zip (rows outa) (rows refouta)).

(** The consistency sum in the words of the specification:
    [(outputValue - 1) - referenceValue], as integers, accumulated over the
    output pixels below the no-data sentinel. *)
Definition consistency_sum (outa refouta : ndarray) : Z :=
  foldr Z.add 0
    (map (fun p : Z * Z => (p.1 - 1) - p.2)
         (filter (fun p : Z * Z => p.1 < nodata) (pixel_pairs outa refouta))).

(** What line 60 accumulates, pixel by pixel: for each output pixel below
    the no-data sentinel, [(outputValue - 1) - referenceValue] in 8 bits. *)
Definition wrapped_terms (outa refouta : ndarray) : list Z :=
  map (fun p : Z * Z => ((p.1 - 1) - p.2) mod 256)
      (filter (fun p : Z * Z => p.1 < nodata) (pixel_pairs outa refouta)).

(** The verdict on the candidate origin [(c, r)]: the window is read and
    the sum of line 60 is compared with zero. *)
Definition consistent (refband : Band) (outa : ndarray) (c r : Z) : result bool :=
  refouta ← ReadAsArray_window refband c r (shape1 outa) (shape0 outa);
  Ok (diffsum outa refouta =? 0).

(** The number of samples of a tile that one sum of line 60 accumulates:
    each term is at most 255, so a smaller tile cannot make the 64-bit
    accumulator wrap. *)
Definition accumulator_safe (outa refouta : ndarray) : Prop :=
  255 * Z.of_nat (length (pixel_pairs outa refouta)) < 2 ^ 64.

(** ** The concrete scenario of the specification *)

Definition gt_ref : GeoTransform := mkGT 1000 1 0 2000 0 (-1).
Definition gt_tile : GeoTransform := mkGT 1003 1 0 1997 0 (-1).

(** A 10 by 10 reference band of 5s and a 4 by 4 tile of 6s. *)
Definition ref10 : Band := mkBand (asarray (replicate 10 (replicate 10 5))) None.
Definition tile4 : Band := mkBand (asarray (replicate 4 (replicate 4 6))) (Some 255).

(** The same tile with its west column overwritten by 9s. *)
Definition tile4_west : Band :=
  mkBand (asarray (replicate 4 [9; 6; 6; 6])) (Some 255).

(** A 2 by 2 tile of 6s. *)
Definition tile2 : Band := mkBand (asarray (replicate 2 (replicate 2 6))) (Some 255).

(** A tile of two pixels, one above and one below the reference value plus
    one, placed on the north-west corner of the reference. *)
Definition tile_cancel : ndarray := asarray [[7; 5]].

(** A one-pixel tile of value 0 and a one-pixel reference of value 255, on
    the grid of the scenario. *)
Definition tile_zero : ndarray := asarray [[0]].
Definition ref255 : Band := mkBand (asarray [[255]]) None.


(** A tile placed half a pixel outside the north-west corner of the
    reference. *)
Definition gt_half : GeoTransform := mkGT (1999 # 2) 1 0 (4001 # 2) 0 (-1).

(** A transform whose determinant is zero. *)
Definition gt_degenerate : GeoTransform := mkGT 1000 1 1 2000 1 1.

(** A tile with two no-data pixels, a reference window that matches it, and
    the same window with other values under the no-data pixels. *)
Definition tile_nodata : ndarray := asarray [[6; 255]; [255; 4]].
Definition window_a : ndarray := asarray [[5; 0]; [9; 3]].
Definition window_b : ndarray := asarray [[5; 77]; [200; 3]].

(** A disk that holds the tile of the scenario. *)
Definition tile_raster : Raster := mkRaster "GTiff" tile4 gt_tile "EPSG:4326".
Definition world0 : World := mkWorld {[ "tile.tif" := tile_raster ]} [].

(** ** Top-level operation [print_shift] *)

(** Lines 199-208. *)
Definition print_shift (refband : Band) (refgt : GeoTransform)
    (outfile : string) (w : World) : result World :=
  outrast ← gdal_Open w outfile;
  let outband := GetRasterBand outrast in
  let outgt := GetGeoTransform outrast in
  so ← calc_shift refband refgt outband outgt;
  let overlap := so.2 in
  match so.1 with
  | None => Ok (print w (PrintStr "Failed to calculate shift"))
  | Some shift => Ok (print w (PrintShift shift overlap))
  end.

(** Two coordinate pairs that are equal as rationals. *)
Definition xy_eq (a b : Q * Q) : Prop := (a.1 == b.1)%Q /\ (a.2 == b.2)%Q.

(** The tile of the scenario a quarter of a pixel off the reference grid. *)
Definition gt_quarter : GeoTransform :=
  mkGT (4013 # 4) 1 0 (7987 # 4) 0 (-1).

(** A 4 by 4 tile of no-data only. *)
Definition tile_void : Band :=
  mkBand (asarray (replicate 4 (replicate 4 255))) (Some 255).

(** * Theorems *)

(** ** Shapes *)

Lemma slice_index_range (n i : Z) : 0 <= n -> 0 <= slice_index n i <= n.
Proof. unfold slice_index. destruct (Z.ltb_spec i 0); lia. Qed.

Lemma length_py_slice {A} (n : nat) (l : list A) (start stop : Z) :
  length l = n -> length (py_slice n l start stop) = slice_len n start stop.
Proof.
  intros Hlen. unfold py_slice, slice_len.
  rewrite length_take, length_drop, Hlen.
  assert (Hn : 0 <= Z.of_nat n) by lia.
  pose proof (slice_index_range (Z.of_nat n) start Hn).
  pose proof (slice_index_range (Z.of_nat n) stop Hn).
  lia.
Qed.

Lemma elem_of_take_drop {A} (x : A) (n m : nat) (l : list A) :
  x ∈ take n (drop m l) -> x ∈ l.
Proof. intros H. apply (subseteq_drop m l), (subseteq_take n _), H. Qed.

(** Well-formedness is a property of the samples as they are stored. *)
Lemma wf_array_data (a : ndarray) :
  wf_array a <->
  length (data a) = shape0 a /\
  Forall (fun row => length row = shape1 a) (data a).
Proof.
  unfold wf_array, rows. rewrite length_map, List.Forall_map.
  split; intros [Hrows Hcols]; (split; [exact Hrows|]);
    (eapply Forall_impl; [exact Hcols|]); cbn beta; intros row;
    rewrite length_map; auto.
Qed.

(** Cutting the margins off a well-formed array gives a well-formed array. *)
Lemma wf_array_trimmed (outa : ndarray) (skipw skipn skipe skips : Z) :
  wf_array outa -> wf_array (trimmed outa skipw skipn skipe skips).
Proof.
  intros Hwf. unfold trimmed.
  destruct (skipw + skipn + skipe + skips =? 0); [exact Hwf|].
  apply wf_array_data in Hwf. destruct Hwf as [Hrows Hcols].
  apply wf_array_data. split; cbn [slice2 data shape0 shape1].
  - rewrite length_map. apply length_py_slice. exact Hrows.
  - apply Forall_forall. intros row Hin. apply list_elem_of_In in Hin.
    apply in_map_iff in Hin. destruct Hin as (row0 & <- & Hin0).
    apply length_py_slice.
    rewrite Forall_forall in Hcols. apply Hcols.
    apply list_elem_of_In in Hin0. unfold py_slice in Hin0.
    eapply elem_of_take_drop. exact Hin0.
Qed.

(** A window that is read from a well-formed band has the shape that was
    asked for. *)
Lemma wf_array_window (b : Band) (xoff yoff : Z) (xsize ysize : nat)
    (a : ndarray) :
  wf_array (band_array b) ->
  ReadAsArray_window b xoff yoff xsize ysize = Ok a ->
  wf_array a /\ shape1 a = xsize /\ shape0 a = ysize.
Proof.
  intros Hwf. apply wf_array_data in Hwf. destruct Hwf as [Hrows Hcols].
  unfold ReadAsArray_window, XSize, YSize.
  destruct (decide _) as [(Hx & Hy & Hxs & Hys)|]; [|discriminate].
  intros [= <-]. rewrite wf_array_data. cbn [data shape0 shape1]. repeat split.
  - rewrite length_map, length_take, length_drop, Hrows. lia.
  - apply Forall_forall. intros row Hin. apply list_elem_of_In in Hin.
    apply in_map_iff in Hin. destruct Hin as (row0 & <- & Hin0).
    rewrite length_take, length_drop.
    rewrite Forall_forall in Hcols. rewrite (Hcols row0); [lia|].
    apply list_elem_of_In in Hin0.
    eapply elem_of_take_drop. exact Hin0.
Qed.

(** ** Round trip of the coordinate transform *)

Lemma np_divide_finite (num den : Q) :
  ~ (den == 0)%Q -> np_divide num den = Finite (num / den).
Proof.
  intros Hden. unfold np_divide.
  destruct (Qeq_bool den 0) eqn:Hz; [|reflexivity].
  apply Qeq_bool_iff in Hz. contradiction.
Qed.

(** C4: for a transform with a non-zero determinant, the inverse map applied
    to the forward map gives back the column and the row, exactly over the
    rationals. *)
Theorem calc_colrow_calc_xy (gt : GeoTransform) (col row : Q) :
  ~ (det gt == 0)%Q ->
  let xy := calc_xy gt col row in
  np_eq (calc_colrow gt xy.1 xy.2).1 col /\
  np_eq (calc_colrow gt xy.1 xy.2).2 row.
Proof.
  unfold det. intros Hdet.
  assert (Hdet' : ~ (gt2 gt * gt4 gt - gt1 gt * gt5 gt == 0)%Q).
  { intros H. apply Hdet.
    assert (Hopp : (gt1 gt * gt5 gt - gt2 gt * gt4 gt
                    == - (gt2 gt * gt4 gt - gt1 gt * gt5 gt))%Q) by ring.
    rewrite Hopp, H. reflexivity. }
  cbn [calc_xy calc_colrow fst snd].
  rewrite !np_divide_finite by assumption.
  cbn [np_eq]. split; field; assumption.
Qed.

Lemma calc_colrow_calc_xy_witness :
  ~ (det gt_ref == 0)%Q /\
  np_eq (calc_colrow gt_ref (calc_xy gt_ref 3 7).1 (calc_xy gt_ref 3 7).2).1 3 /\
  np_eq (calc_colrow gt_ref (calc_xy gt_ref 3 7).1 (calc_xy gt_ref 3 7).2).2 7.
Proof.
  assert (H : ~ (det gt_ref == 0)%Q) by (vm_compute; discriminate).
  split; [exact H | exact (calc_colrow_calc_xy gt_ref 3 7 H)].
Defined.

(** ** The consistency sum *)

Lemma sum_app (l1 l2 : list Z) :
  foldr Z.add 0 (l1 ++ l2) = foldr Z.add 0 l1 + foldr Z.add 0 l2.
Proof. induction l1 as [|x l1 IH]; cbn [foldr app]; lia. Qed.

(** One row of line 60 against the terms of the same row. *)
Lemma row_diffs (orow rrow : list Z) :
  foldr Z.add 0
    (zip_with (fun (ci : bool) x => if ci then x else 0)
       (map (fun x => x <? nodata) orow)
       (zip_with (fun x y => wrap8 (x - y))
          (map (fun x => wrap8 (x - 1)) orow) rrow))
  = foldr Z.add 0
      (map (fun p : Z * Z => ((p.1 - 1) - p.2) mod 256)
         (filter (fun p : Z * Z => p.1 < nodata) (zip orow rrow))).
Proof.
  revert rrow. induction orow as [|o orow IH]; intros [|r rrow]; try reflexivity.
  cbn [map zip_with foldr]. rewrite IH.
  destruct (Z.ltb_spec o nodata) as [Hlt|Hge].
  - rewrite filter_cons_True by exact Hlt. cbn [map foldr fst snd].
    unfold wrap8. change (2 ^ 8) with 256. rewrite Zminus_mod_idemp_l.
    reflexivity.
  - rewrite filter_cons_False by (cbn; lia). reflexivity.
Qed.

(** The sum of line 60 is the sum of the 8-bit terms, in 64 bits. *)
Lemma diffsum_wrapped (outa refouta : ndarray) :
  diffsum outa refouta = wrap64 (foldr Z.add 0 (wrapped_terms outa refouta)).
Proof.
  unfold diffsum, diffs, wrapped_terms, pixel_pairs, np_sum, np_where, np_less,
    np_subtract, np_subtract_scalar. f_equal.
  generalize (rows refouta) as rr. induction (rows outa) as [|orow ro IH];
    intros [|rrow rr]; try reflexivity.
  cbn [map zip_with concat]. rewrite filter_app, map_app, !sum_app.
  rewrite IH, row_diffs. reflexivity.
Qed.

Lemma wrapped_terms_range (outa refouta : ndarray) :
  Forall (fun t => 0 <= t <= 255) (wrapped_terms outa refouta).
Proof.
  unfold wrapped_terms. apply List.Forall_map, Forall_forall. intros p _.
  assert (H256 : 0 < 256) by lia.
  pose proof (Z.mod_pos_bound (p.1 - 1 - p.2) 256 H256). lia.
Qed.

Lemma length_wrapped_terms (outa refouta : ndarray) :
  (length (wrapped_terms outa refouta) <= length (pixel_pairs outa refouta))%nat.
Proof. unfold wrapped_terms. rewrite length_map. apply length_filter. Qed.

Lemma sum_bytes_range (l : list Z) :
  Forall (fun t => 0 <= t <= 255) l ->
  0 <= foldr Z.add 0 l <= 255 * Z.of_nat (length l).
Proof.
  induction 1 as [|t l Ht _ IH]; cbn [foldr length]; lia.
Qed.

Lemma sum_bytes_zero (l : list Z) :
  Forall (fun t => 0 <= t <= 255) l ->
  foldr Z.add 0 l = 0 <-> Forall (fun t => t = 0) l.
Proof.
  induction 1 as [|t l Ht Hl IH]; cbn [foldr].
  - split; [constructor|reflexivity].
  - pose proof (sum_bytes_range l Hl) as Hsum. split.
    + intros H. constructor; [lia|apply IH; lia].
    + intros H. inversion H as [|? ? -> Hrest]; subst.
      apply IH in Hrest. lia.
Qed.

(** Below the size at which the accumulator could wrap, the sum is zero
    exactly when every term is. *)
Lemma diffsum_zero_iff (outa refouta : ndarray) :
  accumulator_safe outa refouta ->
  diffsum outa refouta = 0 <->
  Forall (fun t => t = 0) (wrapped_terms outa refouta).
Proof.
  unfold accumulator_safe. intros Hsafe. rewrite diffsum_wrapped.
  pose proof (wrapped_terms_range outa refouta) as Hrange.
  pose proof (sum_bytes_range _ Hrange) as Hsum.
  pose proof (length_wrapped_terms outa refouta) as Hlen.
  unfold wrap64. rewrite Z.mod_small by lia.
  apply sum_bytes_zero. exact Hrange.
Qed.

Lemma test_origin_consistent (refband : Band) (refgt : GeoTransform)
    (outa : ndarray) (outnwxy : Q * Q) (c r coff roff : Z) :
  test_origin refband refgt outa outnwxy (c, r) coff roff =
  match consistent refband outa (c + coff) (r + roff) with
  | Raise e => Raise e
  | Ok true =>
      Ok (Some (xy_sub (calc_xy refgt (inject_Z (c + coff)) (inject_Z (r + roff)))
                       outnwxy))
  | Ok false => Ok None
  end.
Proof.
  unfold test_origin, consistent, mbind, result_bind. cbn [fst snd].
  destruct (ReadAsArray_window refband (c + coff) (r + roff) _ _) as [refouta|e];
    [|reflexivity].
  destruct (diffsum outa refouta =? 0); reflexivity.
Qed.

(** Reference rows that differ only under sentinel pixels leave the pixels
    that are summed unchanged. *)
Lemma filter_zip_off_sentinel (orow ra rb : list Z) :
  Forall3 (fun o r r' => o <> nodata -> r = r') orow ra rb ->
  filter (fun p : Z * Z => p.1 < nodata) (zip orow ra)
  = filter (fun p : Z * Z => p.1 < nodata) (zip orow rb).
Proof.
  induction 1 as [|o r r' orow ra rb Hhd _ IH]; [reflexivity|].
  cbn [zip zip_with]. destruct (decide (o < nodata)) as [Hlt|Hge].
  - rewrite !filter_cons_True by exact Hlt.
    rewrite IH, Hhd by lia. reflexivity.
  - rewrite !filter_cons_False by exact Hge. exact IH.
Qed.

Lemma wrapped_terms_off_sentinel (outa refa refb : ndarray) :
  Forall3 (Forall3 (fun o r r' => o <> nodata -> r = r'))
    (rows outa) (rows refa) (rows refb) ->
  wrapped_terms outa refb = wrapped_terms outa refa.
Proof.
  unfold wrapped_terms, pixel_pairs.
  induction 1 as [|orow ra rb ro rra rrb Hrow _ IH]; [reflexivity|].
  cbn [zip_with concat]. rewrite !filter_app, !map_app.
  rewrite IH, (filter_zip_off_sentinel _ _ _ Hrow). reflexivity.
Qed.

(** The samples of arrays are bytes. *)
Lemma uint8_val_range (b : uint8) : 0 <= uint8_val b < 256.
Proof. unfold uint8_val. pose proof (Byte.to_N_bounded b). lia. Qed.

Lemma pixel_pairs_bytes (outa refouta : ndarray) :
  Forall (fun p : Z * Z => 0 <= p.1 < 256 /\ 0 <= p.2 < 256)
    (pixel_pairs outa refouta).
Proof.
  unfold pixel_pairs, rows. generalize (data refouta) as dr.
  induction (data outa) as [|orow dout IH]; intros [|rrow dr];
    cbn [map zip_with concat]; try constructor.
  apply Forall_app. split; [|apply IH].
  clear IH. revert rrow. induction orow as [|o orow IHrow];
    intros [|r rrow]; cbn [map zip_with]; constructor; [|apply IHrow].
  cbn [fst snd]. split; apply uint8_val_range.
Qed.

(** Every term that line 60 hands to [np.sum] is a byte: none is negative. *)
Lemma diffs_range (outa refouta : ndarray) :
  Forall (Forall (fun t => 0 <= t <= 255)) (diffs outa refouta).
Proof.
  assert (H256 : 0 < 2 ^ 8) by lia.
  unfold diffs, np_where, np_less, np_subtract, np_subtract_scalar.
  generalize (rows refouta) as rr. induction (rows outa) as [|orow ro IH];
    intros [|rrow rr]; cbn [map zip_with]; constructor; [|apply IH].
  clear IH. revert rrow. induction orow as [|o orow IHrow];
    intros [|r rrow]; cbn [map zip_with]; constructor; [|apply IHrow].
  destruct (o <? nodata); [|lia].
  generalize (wrap8 (o - 1) - r). intros z. unfold wrap8.
  pose proof (Z.mod_pos_bound z (2 ^ 8) H256) as Hz.
  change (2 ^ 8) with 256 in *. lia.
Qed.

(** A term is zero exactly when the output pixel is the reference pixel
    plus one in 8 bits. *)
Lemma term_zero_iff (o r : Z) :
  0 <= o < 256 -> 0 <= r < 256 ->
  ((o - 1) - r) mod 256 = 0 <-> o = (r + 1) mod 256.
Proof. intros Ho Hr. Z.div_mod_to_equations. lia. Qed.

Lemma diffsum_zero_iff_match (outa refouta : ndarray) :
  accumulator_safe outa refouta ->
  diffsum outa refouta = 0 <->
  Forall (fun p : Z * Z => p.1 < 255 -> p.1 = (p.2 + 1) mod 256)
    (pixel_pairs outa refouta).
Proof.
  intros Hsafe. rewrite (diffsum_zero_iff _ _ Hsafe). unfold wrapped_terms.
  pose proof (pixel_pairs_bytes outa refouta) as Hbytes.
  induction Hbytes as [|p l [Ho Hr] _ IH]; [split; constructor|].
  destruct (decide (p.1 < nodata)) as [Hlt|Hge].
  - rewrite filter_cons_True by exact Hlt. cbn [map].
    rewrite !Forall_cons, IH, (term_zero_iff _ _ Ho Hr).
    unfold nodata in Hlt. tauto.
  - rewrite filter_cons_False by exact Hge.
    rewrite Forall_cons, IH. unfold nodata in Hge. split; [|tauto].
    intros H. split; [lia|exact H].
Qed.

(** C3, as the code has it: the sum of line 60 accumulates, in 64 bits,
    the 8-bit difference [((outputValue - 1) - referenceValue) mod 256] over
    exactly the output pixels strictly below the sentinel 255; a candidate
    whose window was read is declared consistent (its shift is returned)
    exactly when that sum is zero; and reference pixels under sentinel
    pixels never affect the sum, whatever their values. *)
Theorem consistency_decided_by_wrapped_sum (outa refouta : ndarray) :
  diffsum outa refouta
  = (foldr Z.add 0
       (map (fun p : Z * Z => ((p.1 - 1) - p.2) mod 256)
          (filter (fun p : Z * Z => p.1 < 255) (pixel_pairs outa refouta))))
    mod 2 ^ 64
  /\ (forall refband refgt outnwxy c r coff roff,
        ReadAsArray_window refband (c + coff) (r + roff)
          (shape1 outa) (shape0 outa) = Ok refouta ->
        (diffsum outa refouta = 0 <->
         test_origin refband refgt outa outnwxy (c, r) coff roff
         = Ok (Some (((calc_xy refgt (inject_Z (c + coff))
                               (inject_Z (r + roff))).1 - outnwxy.1)%Q,
                     ((calc_xy refgt (inject_Z (c + coff))
                               (inject_Z (r + roff))).2 - outnwxy.2)%Q)))
        /\ (diffsum outa refouta <> 0 <->
            test_origin refband refgt outa outnwxy (c, r) coff roff = Ok None))
  /\ (forall refb,
        Forall3 (Forall3 (fun o r r' => o <> 255 -> r = r'))
          (rows outa) (rows refouta) (rows refb) ->
        diffsum outa refb = diffsum outa refouta).
Proof.
  split; [exact (diffsum_wrapped outa refouta)|]. split.
  - intros refband refgt outnwxy c r coff roff Hread.
    unfold test_origin, mbind, result_bind. cbn [fst snd]. rewrite Hread.
    destruct (Z.eqb_spec (diffsum outa refouta) 0) as [Hz|Hnz];
      split; split; intros H; try congruence; try reflexivity.
  - intros refb Hoff. rewrite !diffsum_wrapped.
    rewrite (wrapped_terms_off_sentinel outa refouta refb Hoff). reflexivity.
Qed.

Lemma consistency_decided_by_wrapped_sum_witness :
  Forall3 (Forall3 (fun o r r' => o <> 255 -> r = r'))
    (rows tile_nodata) (rows window_a) (rows window_b)
  /\ diffsum tile_nodata window_b = diffsum tile_nodata window_a
  /\ diffsum tile_nodata window_a = 0.
Proof.
  assert (H : Forall3 (Forall3 (fun o r r' => o <> 255 -> r = r'))
                (rows tile_nodata) (rows window_a) (rows window_b)).
  { repeat constructor; intros Hne; try reflexivity; exfalso; apply Hne;
      reflexivity. }
  split; [exact H|]. split.
  - exact (proj2 (proj2 (consistency_decided_by_wrapped_sum tile_nodata window_a))
             window_b H).
  - reflexivity.
Defined.

(** C3 as stated fails in both directions. The tile (7, 5) on a window of
    5s has the integer sum (7-1-5) + (5-1-5) = 0, yet line 60 gives 256 and
    no candidate is accepted; the tile (0) on a window (255) has the integer
    sum -256, yet line 60 gives 0 and the candidate is accepted. *)
Lemma integer_sum_does_not_decide :
  consistency_sum tile_cancel (asarray [[5; 5]]) = 0
  /\ diffsum tile_cancel (asarray [[5; 5]]) = 256
  /\ calc_shift_skip ref10 gt_ref tile_cancel gt_ref 0 0 0 0 = Ok None
  /\ consistency_sum tile_zero (asarray [[255]]) = -256
  /\ diffsum tile_zero (asarray [[255]]) = 0
  /\ calc_shift_skip ref255 gt_ref tile_zero gt_ref 0 0 0 0
     = Ok (Some (0%Q, 0%Q)).
Proof. repeat split; vm_compute; reflexivity. Qed.

(** ** The single-margin test *)

Lemma for_in_app {A R} (l1 l2 : list A) (body : A -> result (option R)) :
  for_in (l1 ++ l2) body =
  match for_in l1 body with
  | Ok None => for_in l2 body
  | res => res
  end.
Proof.
  induction l1 as [|x l1 IH]; cbn [for_in app]; [reflexivity|].
  destruct (body x) as [[v|]|e]; [reflexivity|exact IH|reflexivity].
Qed.

Lemma for_in_map {A B R} (g : A -> B) (l : list A) (body : B -> result (option R)) :
  for_in (map g l) body = for_in l (fun x => body (g x)).
Proof.
  induction l as [|x l IH]; cbn [for_in map]; [reflexivity|].
  destruct (body (g x)) as [[v|]|e]; [reflexivity|exact IH|reflexivity].
Qed.

(** Two nested loops visit the pairs of their ranges with the outer
    variable changing slowest. *)
Lemma for_in_nested {A B R} (xs : list A) (ys : list B)
    (body : A -> B -> result (option R)) :
  for_in xs (fun x => for_in ys (body x))
  = for_in (list_prod xs ys) (fun p => body p.1 p.2).
Proof.
  induction xs as [|x xs IH]; cbn [for_in list_prod]; [reflexivity|].
  rewrite for_in_app, for_in_map. cbn [fst snd].
  destruct (for_in ys (body x)) as [[v|]|e]; [reflexivity|exact IH|reflexivity].
Qed.

Lemma candidate_order :
  list_prod (range 2) (range 2) = [(0, 0); (0, 1); (1, 0); (1, 1)].
Proof. reflexivity. Qed.

Lemma calc_colrow_finite (gt : GeoTransform) (x y : Q) :
  ~ (det gt == 0)%Q ->
  exists qc qr, calc_colrow gt x y = (Finite qc, Finite qr).
Proof.
  unfold det. intros Hdet.
  assert (Hdet' : ~ (gt2 gt * gt4 gt - gt1 gt * gt5 gt == 0)%Q).
  { intros H. apply Hdet.
    assert (Hopp : (gt1 gt * gt5 gt - gt2 gt * gt4 gt
                    == - (gt2 gt * gt4 gt - gt1 gt * gt5 gt))%Q) by ring.
    rewrite Hopp, H. reflexivity. }
  unfold calc_colrow. rewrite !np_divide_finite by assumption.
  eexists _, _. reflexivity.
Qed.

(** With finite grid coordinates, the test is one loop over the four
    candidate origins. *)
Lemma calc_shift_skip_loop (refband : Band) (refgt : GeoTransform)
    (outa : ndarray) (outgt : GeoTransform) (skipw skipn skipe skips : Z)
    (qc qr : Q) :
  let outnwxy := calc_xy outgt (inject_Z skipw) (inject_Z skipn) in
  calc_colrow refgt outnwxy.1 outnwxy.2 = (Finite qc, Finite qr) ->
  calc_shift_skip refband refgt outa outgt skipw skipn skipe skips
  = for_in [(0, 0); (0, 1); (1, 0); (1, 1)]
      (fun d => test_origin refband refgt (trimmed outa skipw skipn skipe skips)
                  outnwxy (Qfloor qc, Qfloor qr) d.1 d.2).
Proof.
  intros outnwxy Hcr. unfold calc_shift_skip. fold outnwxy. rewrite Hcr.
  unfold mbind, result_bind. cbn [fst snd int_floor].
  rewrite for_in_nested, candidate_order. reflexivity.
Qed.




(** ** The orchestration over margins *)

Section FirstSubset.
Variable tryShift : Z -> Z -> Z -> Z -> result (option (Q * Q)).
Variables skipWE skipNS : Z.

#[local] Abbreviation trial es := (tryShift_margin tryShift (margin skipWE skipNS es)).

Lemma first_subset_found (pre post : list (list Edge)) (es : list Edge)
    (shift : Q * Q) :
  (forall es', es' ∈ pre -> trial es' = Ok None) ->
  trial es = Ok (Some shift) ->
  first_subset tryShift skipWE skipNS (pre ++ es :: post)
  = Ok (Some shift, Some (OverlapMask es)).
Proof.
  induction pre as [|es0 pre IH]; intros Hpre Hes;
    cbn [first_subset app].
  - rewrite Hes. reflexivity.
  - rewrite (Hpre es0) by (apply list_elem_of_here).
    apply IH; [|exact Hes].
    intros es' Hin. apply Hpre. apply list_elem_of_further. exact Hin.
Qed.

Lemma first_subset_raise (pre post : list (list Edge)) (es : list Edge)
    (e : exn) :
  (forall es', es' ∈ pre -> trial es' = Ok None) ->
  trial es = Raise e ->
  first_subset tryShift skipWE skipNS (pre ++ es :: post) = Raise e.
Proof.
  induction pre as [|es0 pre IH]; intros Hpre Hes;
    cbn [first_subset app].
  - rewrite Hes. reflexivity.
  - rewrite (Hpre es0) by (apply list_elem_of_here).
    apply IH; [|exact Hes].
    intros es' Hin. apply Hpre. apply list_elem_of_further. exact Hin.
Qed.

Lemma first_subset_none (subsets : list (list Edge)) :
  first_subset tryShift skipWE skipNS subsets = Ok (None, None)
  <-> forall es, es ∈ subsets -> trial es = Ok None.
Proof.
  induction subsets as [|es0 rest IH]; cbn [first_subset].
  - split; [|reflexivity]. intros _ es Hin. inversion Hin.
  - destruct (tryShift_margin tryShift (margin skipWE skipNS es0))
      as [[s|]|e] eqn:H0.
    + split; [discriminate|]. intros Hall.
      specialize (Hall es0 (list_elem_of_here _ _)). congruence.
    + rewrite IH. split.
      * intros Hall es Hin. inversion Hin; subst; [exact H0|].
        apply Hall. assumption.
      * intros Hall es Hin. apply Hall, list_elem_of_further, Hin.
    + split; [discriminate|]. intros Hall.
      specialize (Hall es0 (list_elem_of_here _ _)). congruence.
Qed.
End FirstSubset.

(** The sixteen hand-written blocks are the loop over [edge_subsets]. *)
Lemma calc_shift_findShift (refband : Band) (refgt : GeoTransform)
    (outband : Band) (outgt : GeoTransform) :
  calc_shift refband refgt outband outgt = findShift refband refgt outband outgt.
Proof.
  unfold calc_shift, findShift.
  rewrite !Z.quot_div_nonneg by lia.
  generalize (Z.of_nat (shape1 (ReadAsArray outband)) / 3) as skipwe.
  generalize (Z.of_nat (shape0 (ReadAsArray outband)) / 3) as skipns.
  generalize (calc_shift_skip refband refgt (ReadAsArray outband) outgt) as T.
  intros T skipns skipwe.
  destruct (T 0 0 0 0) as [[s|]|e]; [reflexivity| |reflexivity].
  vm_compute.
  repeat match goal with
         | |- context [T ?a ?b ?c ?d] =>
             destruct (T a b c d) as [[?|]|?]; try reflexivity
         end.
Qed.

(** C1: [calc_shift] runs the zero-margin test first and returns its shift
    with mask 0; otherwise, with [skipWE = floor(ncols/3)] and
    [skipNS = floor(nrows/3)], it runs the test for the 15 non-empty subsets
    of the edges, by increasing size and for one size in the order West,
    North, East, South, returns the shift of the first subset that succeeds
    with that subset's mask, and returns [(None, None)] only when the
    zero-margin test and all 15 subsets fail. *)
Theorem calc_shift_search_order (refband : Band) (refgt : GeoTransform)
    (outband : Band) (outgt : GeoTransform) :
  let outa := ReadAsArray outband in
  let tryShift := calc_shift_skip refband refgt outa outgt in
  let skipWE := Z.of_nat (shape1 outa) / 3 in
  let skipNS := Z.of_nat (shape0 outa) / 3 in
  let trial es :=
    tryShift (if bool_decide (WEST ∈ es) then skipWE else 0)
             (if bool_decide (NORTH ∈ es) then skipNS else 0)
             (if bool_decide (EAST ∈ es) then skipWE else 0)
             (if bool_decide (SOUTH ∈ es) then skipNS else 0) in
  let res := calc_shift refband refgt outband outgt in
  edge_subsets
  = [ [WEST]; [NORTH]; [EAST]; [SOUTH];
      [WEST; NORTH]; [WEST; EAST]; [WEST; SOUTH];
      [NORTH; EAST]; [NORTH; SOUTH]; [EAST; SOUTH];
      [WEST; NORTH; EAST]; [WEST; NORTH; SOUTH]; [WEST; EAST; SOUTH];
      [NORTH; EAST; SOUTH]; [WEST; NORTH; EAST; SOUTH] ]
  /\ map OverlapMask edge_subsets
     = [1; 2; 4; 8; 3; 5; 9; 6; 10; 12; 7; 11; 13; 14; 15]
  /\ res = findShift refband refgt outband outgt
  /\ (forall shift, tryShift 0 0 0 0 = Ok (Some shift) ->
      res = Ok (Some shift, Some 0))
  /\ (forall pre es post shift,
        edge_subsets = pre ++ es :: post ->
        tryShift 0 0 0 0 = Ok None ->
        (forall es', es' ∈ pre -> trial es' = Ok None) ->
        trial es = Ok (Some shift) ->
        res = Ok (Some shift, Some (OverlapMask es)))
  /\ (res = Ok (None, None) <->
      tryShift 0 0 0 0 = Ok None /\
      forall es, es ∈ edge_subsets -> trial es = Ok None).
Proof.
  intros outa tryShift skipWE skipNS trial res.
  split; [reflexivity|]. split; [reflexivity|].
  assert (Hres : res = findShift refband refgt outband outgt)
    by apply calc_shift_findShift.
  split; [exact Hres|]. rewrite Hres. unfold findShift.
  fold outa tryShift skipWE skipNS. split; [|split].
  - intros shift H0. rewrite H0. reflexivity.
  - intros pre es post shift Hsplit H0 Hpre Hes. rewrite H0, Hsplit.
    apply first_subset_found; assumption.
  - destruct (tryShift 0 0 0 0) as [[s|]|e].
    + split; [discriminate|]. intros [H0 _]. discriminate.
    + rewrite first_subset_none. split; [intros H; split; [reflexivity|exact H]|].
      intros [_ H]. exact H.
    + split; [discriminate|]. intros [H0 _]. discriminate.
Qed.

Lemma calc_shift_search_order_witness :
  calc_shift_skip ref10 gt_ref (ReadAsArray tile4_west) gt_tile 0 0 0 0 = Ok None
  /\ calc_shift_skip ref10 gt_ref (ReadAsArray tile4_west) gt_tile 1 0 0 0
     = Ok (Some (0%Q, 0%Q))
  /\ calc_shift_skip ref10 gt_ref (ReadAsArray tile4_west) gt_tile 1 1 0 0
     = Ok (Some (0%Q, 0%Q))
  /\ calc_shift ref10 gt_ref tile4_west gt_tile
     = Ok (Some (0%Q, 0%Q), Some (OverlapMask [WEST])).
Proof.
  assert (H0 : calc_shift_skip ref10 gt_ref (ReadAsArray tile4_west) gt_tile
                 0 0 0 0 = Ok None) by (vm_compute; reflexivity).
  assert (HW : calc_shift_skip ref10 gt_ref (ReadAsArray tile4_west) gt_tile
                 1 0 0 0 = Ok (Some (0%Q, 0%Q))) by (vm_compute; reflexivity).
  split; [exact H0|]. split; [exact HW|]. split; [vm_compute; reflexivity|].
  destruct (calc_shift_search_order ref10 gt_ref tile4_west gt_tile)
    as (Hsubsets & _ & _ & _ & Hfirst & _).
  apply (Hfirst [] [WEST] _ (0%Q, 0%Q) Hsubsets H0).
  - intros es' Hin. inversion Hin.
  - exact HW.
Defined.

(** C8: in the concrete scenario (a 10 by 10 reference of 5s with transform
    (1000, 1, 0, 2000, 0, -1), a 4 by 4 tile of 6s with transform
    (1003, 1, 0, 1997, 0, -1)) [calc_shift] returns the shift (0, 0) with
    overlap mask 0, found at the grid cell (3, 3) of the reference. *)
Theorem scenario_zero_shift :
  rows (ReadAsArray ref10) = replicate 10 (replicate 10 5)
  /\ rows (ReadAsArray tile4) = replicate 4 (replicate 4 6)
  /\ calc_colrow gt_ref (calc_xy gt_tile 0 0).1 (calc_xy gt_tile 0 0).2
     = (Finite 3, Finite 3)
  /\ consistent ref10 (ReadAsArray tile4) 3 3 = Ok true
  /\ calc_shift ref10 gt_ref tile4 gt_tile = Ok (Some (0%Q, 0%Q), Some 0).
Proof. repeat split; vm_compute; reflexivity. Qed.

(** C9, as the code has it: a window and a tile that are not element-wise
    equal under the value-minus-1 convention are declared consistent, and a
    shift is returned, when the 8-bit subtraction wraps around: the output
    pixel 0 on the reference pixel 255 gives the term (0 - 1 - 255) mod 256
    = 0. Differences cannot cancel: every term that is summed lies between
    0 and 255, and for a tile too small to wrap the 64-bit accumulator the
    sum is zero exactly when every output pixel below 255 is the reference
    pixel plus one modulo 256. *)
Theorem wraparound_accepted :
  (exists (refband : Band) (refgt : GeoTransform) (outa : ndarray)
          (outgt : GeoTransform) (refouta : ndarray),
      ReadAsArray_window refband 0 0 (shape1 outa) (shape0 outa) = Ok refouta
      /\ pixel_pairs outa refouta = [(0, 255)]
      /\ Forall (fun p : Z * Z => p.1 < nodata /\ p.1 <> p.2 + 1)
           (pixel_pairs outa refouta)
      /\ diffs outa refouta = [[0]]
      /\ diffsum outa refouta = 0
      /\ test_origin refband refgt outa (calc_xy outgt 0 0) (0, 0) 0 0
         = Ok (Some (0%Q, 0%Q))
      /\ calc_shift_skip refband refgt outa outgt 0 0 0 0
         = Ok (Some (0%Q, 0%Q)))
  /\ (forall outa refouta,
        Forall (Forall (fun t => 0 <= t <= 255)) (diffs outa refouta))
  /\ (forall outa refouta,
        255 * Z.of_nat (length (pixel_pairs outa refouta)) < 2 ^ 64 ->
        diffsum outa refouta = 0 <->
        Forall (fun p : Z * Z => p.1 < 255 -> p.1 = (p.2 + 1) mod 256)
          (pixel_pairs outa refouta)).
Proof.
  split; [|split].
  - exists ref255, gt_ref, tile_zero, gt_ref, (asarray [[255]]).
    assert (Hpairs : pixel_pairs tile_zero (asarray [[255]]) = [(0, 255)])
      by (vm_compute; reflexivity).
    split; [vm_compute; reflexivity|]. split; [exact Hpairs|]. split.
    { rewrite Hpairs. repeat constructor; cbn; unfold nodata; lia. }
    repeat split; vm_compute; reflexivity.
  - exact diffs_range.
  - exact diffsum_zero_iff_match.
Qed.

Lemma wraparound_accepted_witness :
  255 * Z.of_nat (length (pixel_pairs tile_cancel (asarray [[5; 5]]))) < 2 ^ 64
  /\ diffsum tile_cancel (asarray [[5; 5]]) <> 0
  /\ ~ Forall (fun p : Z * Z => p.1 < 255 -> p.1 = (p.2 + 1) mod 256)
         (pixel_pairs tile_cancel (asarray [[5; 5]])).
Proof.
  assert (Hsafe : 255 * Z.of_nat (length (pixel_pairs tile_cancel
                                            (asarray [[5; 5]]))) < 2 ^ 64)
    by (vm_compute; reflexivity).
  assert (Hsum : diffsum tile_cancel (asarray [[5; 5]]) <> 0)
    by (vm_compute; discriminate).
  split; [exact Hsafe|]. split; [exact Hsum|].
  intros Hmatch. apply Hsum.
  exact (proj2 (proj2 (proj2 wraparound_accepted) tile_cancel
                  (asarray [[5; 5]]) Hsafe) Hmatch).
Defined.

(** C9 as stated fails: no negative difference is ever summed, so none can
    cancel a positive one. On the tile (7, 5) over a window of 5s the integer
    differences +1 and -1 would cancel, but line 60 sums the bytes 1 and 255
    to 256 and [calc_shift_skip] returns [None]. *)
Lemma cancellation_rejected :
  pixel_pairs tile_cancel (asarray [[5; 5]]) = [(7, 5); (5, 5)]
  /\ consistency_sum tile_cancel (asarray [[5; 5]]) = 0
  /\ diffs tile_cancel (asarray [[5; 5]]) = [[1; 255]]
  /\ diffsum tile_cancel (asarray [[5; 5]]) = 256
  /\ calc_shift_skip ref10 gt_ref tile_cancel gt_ref 0 0 0 0 = Ok None
  /\ ~ (exists outa refouta row t,
          row ∈ diffs outa refouta /\ t ∈ row /\ t < 0).
Proof.
  repeat split; try (vm_compute; reflexivity).
  intros (outa & refouta & row & t & Hrow & Ht & Hneg).
  pose proof (diffs_range outa refouta) as Hrange.
  rewrite Forall_forall in Hrange. specialize (Hrange row Hrow).
  rewrite Forall_forall in Hrange. specialize (Hrange t Ht). lia.
Qed.

(** C10: for a tile with fewer than 3 columns and fewer than 3 rows both
    margins are 0, each of the 15 subset trials is the zero-margin call
    again, and [calc_shift] gives the zero-margin shift with mask 0 or
    [(None, None)]; it never returns a non-zero mask. *)
Theorem small_tile_mask_zero (refband : Band) (refgt : GeoTransform)
    (outband : Band) (outgt : GeoTransform) :
  (XSize outband < 3)%nat ->
  (YSize outband < 3)%nat ->
  let outa := ReadAsArray outband in
  let tryShift := calc_shift_skip refband refgt outa outgt in
  let skipwe := Z.quot (Z.of_nat (shape1 outa)) 3 in
  let skipns := Z.quot (Z.of_nat (shape0 outa)) 3 in
  let res := calc_shift refband refgt outband outgt in
  skipwe = 0 /\ skipns = 0
  /\ Z.of_nat (shape1 outa) / 3 = 0 /\ Z.of_nat (shape0 outa) / 3 = 0
  /\ (forall es, margin skipwe skipns es = (0, 0, 0, 0))
  /\ (forall es, tryShift_margin tryShift (margin skipwe skipns es)
                 = tryShift 0 0 0 0)
  /\ res = match tryShift 0 0 0 0 with
           | Raise e => Raise e
           | Ok (Some shift) => Ok (Some shift, Some 0)
           | Ok None => Ok (None, None)
           end
  /\ (forall shift mask, res = Ok (Some shift, Some mask) -> mask = 0).
Proof.
  intros Hcols Hrows outa tryShift skipwe skipns res.
  unfold XSize, YSize in Hcols, Hrows. change (band_array outband) with outa in *.
  assert (Hwe : skipwe = 0) by (apply Z.quot_small; subst outa; lia).
  assert (Hns : skipns = 0) by (apply Z.quot_small; subst outa; lia).
  assert (Hwe' : Z.of_nat (shape1 outa) / 3 = 0)
    by (apply Z.div_small; subst outa; lia).
  assert (Hns' : Z.of_nat (shape0 outa) / 3 = 0)
    by (apply Z.div_small; subst outa; lia).
  assert (Hmargin : forall es, margin skipwe skipns es = (0, 0, 0, 0)).
  { intros es. rewrite Hwe, Hns. unfold margin.
    repeat destruct (bool_decide _); reflexivity. }
  assert (Hres : res = match tryShift 0 0 0 0 with
                       | Raise e => Raise e
                       | Ok (Some shift) => Ok (Some shift, Some 0)
                       | Ok None => Ok (None, None)
                       end).
  { subst res. rewrite calc_shift_findShift. unfold findShift.
    fold outa tryShift. rewrite Hwe', Hns'.
    destruct (tryShift 0 0 0 0) as [[s|]|e] eqn:H0; try reflexivity.
    apply first_subset_none. intros es _.
    rewrite <- Hwe at 1. rewrite <- Hns. rewrite Hmargin. exact H0. }
  repeat split; try assumption.
  - intros es. rewrite Hmargin. reflexivity.
  - intros shift mask. rewrite Hres.
    destruct (tryShift 0 0 0 0) as [[s|]|e]; congruence.
Qed.

Lemma small_tile_mask_zero_witness :
  (XSize tile2 < 3)%nat /\ (YSize tile2 < 3)%nat
  /\ calc_shift ref10 gt_ref tile2 gt_tile
     = match calc_shift_skip ref10 gt_ref (ReadAsArray tile2) gt_tile 0 0 0 0 with
       | Raise e => Raise e
       | Ok (Some shift) => Ok (Some shift, Some 0)
       | Ok None => Ok (None, None)
       end.
Proof.
  assert (Hcols : (XSize tile2 < 3)%nat) by (vm_compute; lia).
  assert (Hrows : (YSize tile2 < 3)%nat) by (vm_compute; lia).
  split; [exact Hcols|]. split; [exact Hrows|].
  destruct (small_tile_mask_zero ref10 gt_ref tile2 gt_tile Hcols Hrows)
    as (_ & _ & _ & _ & _ & _ & Hres & _).
  exact Hres.
Defined.

(** ** Degenerate transforms *)

Lemma np_divide_zero (num den : Q) :
  (den == 0)%Q -> np_divide num den = NaN \/ np_divide num den = Inf.
Proof.
  intros Hden. unfold np_divide.
  apply Qeq_bool_iff in Hden. rewrite Hden.
  destruct (Qeq_bool num 0); [left|right]; reflexivity.
Qed.

Lemma int_floor_nonfinite (a : npfloat) :
  a = NaN \/ a = Inf ->
  exists ex, (ex = ValueError \/ ex = OverflowError) /\ int_floor a = Raise ex.
Proof.
  intros [-> | ->]; [exists ValueError|exists OverflowError]; cbn; auto.
Qed.

Lemma calc_shift_raise (refband : Band) (refgt : GeoTransform)
    (outband : Band) (outgt : GeoTransform) (e : exn) :
  calc_shift_skip refband refgt (ReadAsArray outband) outgt 0 0 0 0 = Raise e ->
  calc_shift refband refgt outband outgt = Raise e.
Proof. intros H0. unfold calc_shift. rewrite H0. reflexivity. Qed.

(** C5, as the code has it: [calc_colrow] makes no test of the determinant.
    For a degenerate transform both coordinates it returns are non-finite;
    the conversion to integers in [calc_shift_skip] then raises the
    [ValueError] or [OverflowError] of [int], and [calc_shift] with it. *)
Theorem degenerate_transform_unchecked (refgt : GeoTransform) :
  (det refgt == 0)%Q ->
  (forall x y q, (calc_colrow refgt x y).1 <> Finite q
                 /\ (calc_colrow refgt x y).2 <> Finite q)
  /\ (forall refband outa outgt skipw skipn skipe skips,
        exists ex, (ex = ValueError \/ ex = OverflowError) /\
          calc_shift_skip refband refgt outa outgt skipw skipn skipe skips
          = Raise ex)
  /\ (forall refband outband outgt,
        exists ex, (ex = ValueError \/ ex = OverflowError) /\
          calc_shift refband refgt outband outgt = Raise ex).
Proof.
  unfold det. intros Hdet.
  assert (Hdet' : (gt2 refgt * gt4 refgt - gt1 refgt * gt5 refgt == 0)%Q).
  { assert (Hopp : (gt2 refgt * gt4 refgt - gt1 refgt * gt5 refgt
                    == - (gt1 refgt * gt5 refgt - gt2 refgt * gt4 refgt))%Q)
      by ring.
    rewrite Hopp, Hdet. reflexivity. }
  assert (Hskip : forall refband outa outgt skipw skipn skipe skips,
             exists ex, (ex = ValueError \/ ex = OverflowError) /\
               calc_shift_skip refband refgt outa outgt skipw skipn skipe skips
               = Raise ex).
  { intros. unfold calc_shift_skip, calc_colrow, mbind, result_bind.
    cbn [fst snd].
    destruct (int_floor_nonfinite _ (np_divide_zero
      ((calc_xy outgt (inject_Z skipw) (inject_Z skipn)).1 * gt5 refgt
       - (calc_xy outgt (inject_Z skipw) (inject_Z skipn)).2 * gt2 refgt
       - gt0 refgt * gt5 refgt + gt2 refgt * gt3 refgt)%Q _ Hdet))
      as (ex & Hex & Hraise).
    exists ex. split; [exact Hex|]. rewrite Hraise. reflexivity. }
  split; [|split].
  - intros x y q. unfold calc_colrow. cbn [fst snd].
    split; intros Heq.
    + destruct (np_divide_zero (x * gt5 refgt - y * gt2 refgt
                                - gt0 refgt * gt5 refgt
                                + gt2 refgt * gt3 refgt)%Q _ Hdet);
        congruence.
    + destruct (np_divide_zero (x * gt4 refgt - y * gt1 refgt
                                - gt0 refgt * gt4 refgt
                                + gt1 refgt * gt3 refgt)%Q _ Hdet');
        congruence.
  - exact Hskip.
  - intros refband outband outgt.
    destruct (Hskip refband (ReadAsArray outband) outgt 0 0 0 0)
      as (ex & Hex & Hraise).
    exists ex. split; [exact Hex|]. apply calc_shift_raise. exact Hraise.
Qed.

Lemma degenerate_transform_unchecked_witness :
  (det gt_degenerate == 0)%Q /\
  exists ex, (ex = ValueError \/ ex = OverflowError) /\
    calc_shift ref10 gt_degenerate tile4 gt_tile = Raise ex.
Proof.
  assert (Hdet : (det gt_degenerate == 0)%Q) by (vm_compute; reflexivity).
  split; [exact Hdet|].
  exact (proj2 (proj2 (degenerate_transform_unchecked gt_degenerate Hdet))
           ref10 tile4 gt_tile).
Defined.

(** C5 as stated fails: for the degenerate [gt_degenerate] the inverse map
    returns the coordinates (inf, inf) as ordinary values, and what
    [calc_shift] raises is the [OverflowError] of [int], not a
    [DegenerateTransform] error. *)
Lemma degenerate_transform_not_rejected :
  (det gt_degenerate == 0)%Q
  /\ calc_colrow gt_degenerate (calc_xy gt_tile 0 0).1 (calc_xy gt_tile 0 0).2
     = (Inf, Inf)
  /\ calc_shift ref10 gt_degenerate tile4 gt_tile = Raise OverflowError
  /\ calc_shift ref10 gt_degenerate tile4 gt_tile <> Raise DegenerateTransform.
Proof.
  split; [vm_compute; reflexivity|]. split; [vm_compute; reflexivity|].
  split; [vm_compute; reflexivity|]. vm_compute. discriminate.
Qed.

(** ** Window reads past the reference band *)

Lemma consistent_out_of_bounds (refband : Band) (outa : ndarray) (c r : Z) :
  ReadAsArray_window refband c r (shape1 outa) (shape0 outa)
  = Raise OutOfBoundsError ->
  consistent refband outa c r = Raise OutOfBoundsError.
Proof.
  intros Hread. unfold consistent, mbind, result_bind. rewrite Hread.
  reflexivity.
Qed.

(** C6, as the code has it: a window read that fails is not handled. When
    the candidates before it were inconsistent, [calc_shift_skip] raises the
    read error and tests no further candidate; an error of the zero-margin
    test, or of the test of a subset reached after failures without error,
    is raised by [calc_shift]. *)
Theorem window_read_failure_propagates (refband : Band) (refgt : GeoTransform)
    (outband : Band) (outgt : GeoTransform) :
  (forall outa skipw skipn skipe skips qc qr,
     let outnwxy := calc_xy outgt (inject_Z skipw) (inject_Z skipn) in
     calc_colrow refgt outnwxy.1 outnwxy.2 = (Finite qc, Finite qr) ->
     let c := Qfloor qc in
     let r := Qfloor qr in
     let outa' := trimmed outa skipw skipn skipe skips in
     let v dc dr := consistent refband outa' (c + dc) (r + dr) in
     let fails dc dr :=
       ReadAsArray_window refband (c + dc) (r + dr) (shape1 outa') (shape0 outa')
       = Raise OutOfBoundsError in
     let res := calc_shift_skip refband refgt outa outgt skipw skipn skipe skips in
     (fails 0 0 -> res = Raise OutOfBoundsError) /\
     (v 0 0 = Ok false -> fails 0 1 -> res = Raise OutOfBoundsError) /\
     (v 0 0 = Ok false -> v 0 1 = Ok false -> fails 1 0 ->
      res = Raise OutOfBoundsError) /\
     (v 0 0 = Ok false -> v 0 1 = Ok false -> v 1 0 = Ok false -> fails 1 1 ->
      res = Raise OutOfBoundsError))
  /\ (let outa := ReadAsArray outband in
      let tryShift := calc_shift_skip refband refgt outa outgt in
      let skipWE := Z.of_nat (shape1 outa) / 3 in
      let skipNS := Z.of_nat (shape0 outa) / 3 in
      let trial es := tryShift_margin tryShift (margin skipWE skipNS es) in
      let res := calc_shift refband refgt outband outgt in
      (forall e, tryShift 0 0 0 0 = Raise e -> res = Raise e) /\
      (forall pre es post e,
         edge_subsets = pre ++ es :: post ->
         tryShift 0 0 0 0 = Ok None ->
         (forall es', es' ∈ pre -> trial es' = Ok None) ->
         trial es = Raise e ->
         res = Raise e)).
Proof.
  split.
  - intros outa skipw skipn skipe skips qc qr outnwxy Hcr c r outa' v fails res.
    subst res. rewrite (calc_shift_skip_loop _ _ _ _ _ _ _ _ qc qr Hcr).
    cbn [for_in fst snd]. rewrite !test_origin_consistent.
    fold outnwxy c r outa'. fold (v 0 0) (v 0 1) (v 1 0) (v 1 1).
    assert (Hfails : forall dc dr, fails dc dr -> v dc dr = Raise OutOfBoundsError).
    { intros dc dr H. apply consistent_out_of_bounds. exact H. }
    repeat split; intros;
      repeat match goal with
             | H : fails _ _ |- _ => apply Hfails in H
             end;
      repeat match goal with
             | H : v _ _ = _ |- _ => rewrite H
             end; reflexivity.
  - intros outa tryShift skipWE skipNS trial res. split.
    + intros e H0. apply calc_shift_raise. exact H0.
    + intros pre es post e Hsplit H0 Hpre Hes. subst res.
      rewrite calc_shift_findShift. unfold findShift.
      fold outa tryShift skipWE skipNS. rewrite H0, Hsplit.
      apply first_subset_raise; assumption.
Qed.

Lemma window_read_failure_propagates_witness :
  calc_shift_skip ref10 gt_ref (ReadAsArray tile4) gt_half 0 0 0 0
  = Raise OutOfBoundsError
  /\ calc_shift ref10 gt_ref tile4 gt_half = Raise OutOfBoundsError.
Proof.
  destruct (window_read_failure_propagates ref10 gt_ref tile4 gt_half)
    as [Hskip [Hzero _]].
  assert (H0 : calc_shift_skip ref10 gt_ref (ReadAsArray tile4) gt_half 0 0 0 0
               = Raise OutOfBoundsError).
  { edestruct (Hskip (ReadAsArray tile4) 0 0 0 0) as [Hfirst _].
    - vm_compute. reflexivity.
    - apply Hfirst. vm_compute. reflexivity. }
  split; [exact H0|]. apply Hzero. exact H0.
Defined.

(** C6 as stated fails: the tile sits half a pixel outside the north-west
    corner of the reference, its first candidate origin (-1, -1) cannot be
    read, its fourth candidate (0, 0) is consistent, and [calc_shift] raises
    the read error instead of going on to it. *)
Lemma out_of_bounds_read_aborts :
  int_floor (calc_colrow gt_ref (calc_xy gt_half 0 0).1 (calc_xy gt_half 0 0).2).1
  = Ok (-1)
  /\ int_floor (calc_colrow gt_ref (calc_xy gt_half 0 0).1 (calc_xy gt_half 0 0).2).2
     = Ok (-1)
  /\ ReadAsArray_window ref10 (-1) (-1) 4 4 = Raise OutOfBoundsError
  /\ consistent ref10 (ReadAsArray tile4) (-1 + 1) (-1 + 1) = Ok true
  /\ calc_shift_skip ref10 gt_ref (ReadAsArray tile4) gt_half 0 0 0 0
     = Raise OutOfBoundsError
  /\ calc_shift ref10 gt_ref tile4 gt_half = Raise OutOfBoundsError.
Proof. repeat split; vm_compute; reflexivity. Qed.

(** ** The files written by [shift] *)

(** C7: when a shift (dx, dy) is found, the files after [shift] are the
    files before with [newfile] set to a raster whose transform is the
    source tile's with [dx] added to [c0] and [dy] to [c3], and whose pixel
    data, no-data value and projection are the source tile's; when no shift
    is found, or the search raises, the files are untouched. *)
Theorem shift_writes_only_newfile (refband : Band) (refgt : GeoTransform)
    (outfile newfile : string) (w : World) (outrast : Raster) :
  files w !! outfile = Some outrast ->
  let outband := GetRasterBand outrast in
  let outgt := GetGeoTransform outrast in
  let found := calc_shift refband refgt outband outgt in
  (forall dx dy overlap,
     found = Ok (Some (dx, dy), overlap) ->
     exists w' newrast,
       shift refband refgt outfile newfile w = Ok w'
       /\ files w' = <[newfile := newrast]> (files w)
       /\ (forall path, path <> newfile -> files w' !! path = files w !! path)
       /\ files w' !! newfile = Some newrast
       /\ GetGeoTransform newrast
          = mkGT (gt0 outgt + dx) (gt1 outgt) (gt2 outgt)
                 (gt3 outgt + dy) (gt4 outgt) (gt5 outgt)
       /\ ReadAsArray (GetRasterBand newrast) = ReadAsArray outband
       /\ GetNoDataValue (GetRasterBand newrast) = GetNoDataValue outband
       /\ GetProjection newrast = GetProjection outrast)
  /\ (forall overlap,
        found = Ok (None, overlap) ->
        exists w', shift refband refgt outfile newfile w = Ok w'
                   /\ files w' = files w)
  /\ (forall e, found = Raise e ->
        shift refband refgt outfile newfile w = Raise e).
Proof.
  intros Hopen outband outgt found.
  unfold shift, gdal_Open, mbind, result_bind. rewrite Hopen.
  fold outband outgt found. split; [|split].
  - intros dx dy overlap Hfound. rewrite Hfound. cbn [fst snd].
    eexists _, _. split; [reflexivity|]. cbn [files write_file print].
    split; [apply insert_insert_eq|]. split.
    { intros path Hne. rewrite insert_insert_eq.
      apply lookup_insert_ne. congruence. }
    split; [rewrite insert_insert_eq; apply lookup_insert_eq|].
    repeat split.
  - intros overlap Hfound. rewrite Hfound. cbn [fst snd].
    eexists. split; reflexivity.
  - intros e Hfound. rewrite Hfound. reflexivity.
Qed.

Lemma shift_writes_only_newfile_witness :
  files world0 !! "tile.tif" = Some tile_raster
  /\ exists w' newrast,
       shift ref10 gt_ref "tile.tif" "new.tif" world0 = Ok w'
       /\ files w' !! "tile.tif" = Some tile_raster
       /\ files w' !! "new.tif" = Some newrast
       /\ GetGeoTransform newrast = mkGT (1003 + 0) 1 0 (1997 + 0) 0 (-1)
       /\ GetRasterBand newrast = tile4
       /\ GetProjection newrast = "EPSG:4326".
Proof.
  assert (Hopen : files world0 !! "tile.tif" = Some tile_raster)
    by apply lookup_singleton_eq.
  split; [exact Hopen|].
  destruct (shift_writes_only_newfile ref10 gt_ref "tile.tif" "new.tif"
              world0 tile_raster Hopen) as [Hfound _].
  destruct (Hfound 0%Q 0%Q (Some 0)) as
    (w' & newrast & Hshift & _ & Hframe & Hnew & Hgt & Harr & Hnd & Hproj).
  { vm_compute. reflexivity. }
  exists w', newrast. split; [exact Hshift|].
  split; [rewrite Hframe by discriminate; exact Hopen|].
  split; [exact Hnew|]. split; [exact Hgt|]. split; [|exact Hproj].
  destruct newrast as [drv [arr nd] gt proj]. cbn in Harr, Hnd |- *.
  rewrite Harr, Hnd. reflexivity.
Defined.

(** * Further properties of the code *)

(** ** The forward map after the inverse map *)

Lemma np_divide_finite_inv (num den q : Q) :
  np_divide num den = Finite q -> ~ (den == 0)%Q /\ q = (num / den)%Q.
Proof.
  unfold np_divide. destruct (Qeq_bool den 0) eqn:Hz.
  - destruct (Qeq_bool num 0); discriminate.
  - intros [= <-]. split; [|reflexivity].
    intros Hden. apply Qeq_bool_iff in Hden. congruence.
Qed.

Lemma calc_colrow_finite_inv (gt : GeoTransform) (x y qc qr : Q) :
  calc_colrow gt x y = (Finite qc, Finite qr) ->
  ~ (det gt == 0)%Q
  /\ qc = ((x * gt5 gt - y * gt2 gt - gt0 gt * gt5 gt + gt2 gt * gt3 gt)
           / (gt1 gt * gt5 gt - gt2 gt * gt4 gt))%Q
  /\ qr = ((x * gt4 gt - y * gt1 gt - gt0 gt * gt4 gt + gt1 gt * gt3 gt)
           / (gt2 gt * gt4 gt - gt1 gt * gt5 gt))%Q.
Proof.
  unfold calc_colrow, det. intros [= Hc Hr].
  apply np_divide_finite_inv in Hc. apply np_divide_finite_inv in Hr.
  destruct Hc as [Hdet ->], Hr as [_ ->]. auto.
Qed.

Lemma det_opp_nonzero (gt : GeoTransform) :
  ~ (det gt == 0)%Q -> ~ (gt2 gt * gt4 gt - gt1 gt * gt5 gt == 0)%Q.
Proof.
  unfold det. intros Hdet H. apply Hdet.
  assert (Hopp : (gt1 gt * gt5 gt - gt2 gt * gt4 gt
                  == - (gt2 gt * gt4 gt - gt1 gt * gt5 gt))%Q) by ring.
  rewrite Hopp, H. reflexivity.
Qed.

(** Whenever [calc_colrow] returns finite coordinates, [calc_xy] maps them
    back to the point they came from. *)
Lemma calc_xy_inverse (gt : GeoTransform) (x y qc qr : Q) :
  calc_colrow gt x y = (Finite qc, Finite qr) ->
  xy_eq (calc_xy gt qc qr) (x, y).
Proof.
  intros Hcr. apply calc_colrow_finite_inv in Hcr.
  destruct Hcr as (Hdet & -> & ->).
  pose proof (det_opp_nonzero gt Hdet) as Hdet'. unfold det in Hdet.
  unfold xy_eq, calc_xy. cbn [fst snd]. split; field; auto.
Qed.

(** X1: for a transform with a non-zero determinant, [calc_colrow] returns
    finite coordinates at every point and [calc_xy] maps them back to that
    point; and [calc_xy] sends different grid positions to different
    points. *)
Theorem calc_xy_calc_colrow (gt : GeoTransform) :
  ~ (det gt == 0)%Q ->
  (forall x y, exists qc qr,
      calc_colrow gt x y = (Finite qc, Finite qr)
      /\ xy_eq (calc_xy gt qc qr) (x, y))
  /\ (forall col row col' row',
        xy_eq (calc_xy gt col row) (calc_xy gt col' row') ->
        (col == col')%Q /\ (row == row')%Q).
Proof.
  intros Hdet. split.
  - intros x y. destruct (calc_colrow_finite gt x y Hdet) as (qc & qr & Hcr).
    exists qc, qr. split; [exact Hcr|]. exact (calc_xy_inverse gt x y qc qr Hcr).
  - intros col row col' row'. unfold xy_eq, calc_xy. cbn [fst snd].
    intros [Hx Hy].
    pose proof (det_opp_nonzero gt Hdet) as Hdet'. unfold det in Hdet.
    assert (Hc : forall c r : Q,
               (c == ((gt0 gt + c * gt1 gt + r * gt2 gt) * gt5 gt
                      - (gt3 gt + c * gt4 gt + r * gt5 gt) * gt2 gt
                      - gt0 gt * gt5 gt + gt2 gt * gt3 gt)
                     / (gt1 gt * gt5 gt - gt2 gt * gt4 gt))%Q)
      by (intros; field; auto).
    assert (Hr : forall c r : Q,
               (r == ((gt0 gt + c * gt1 gt + r * gt2 gt) * gt4 gt
                      - (gt3 gt + c * gt4 gt + r * gt5 gt) * gt1 gt
                      - gt0 gt * gt4 gt + gt1 gt * gt3 gt)
                     / (gt2 gt * gt4 gt - gt1 gt * gt5 gt))%Q)
      by (intros; field; auto).
    split.
    + rewrite (Hc col row), (Hc col' row'), Hx, Hy. reflexivity.
    + rewrite (Hr col row), (Hr col' row'), Hx, Hy. reflexivity.
Qed.

Lemma calc_xy_calc_colrow_witness :
  ~ (det gt_ref == 0)%Q
  /\ exists qc qr,
       calc_colrow gt_ref 1003 1997 = (Finite qc, Finite qr)
       /\ xy_eq (calc_xy gt_ref qc qr) (1003%Q, 1997%Q).
Proof.
  assert (H : ~ (det gt_ref == 0)%Q) by (vm_compute; discriminate).
  split; [exact H|exact (proj1 (calc_xy_calc_colrow gt_ref H) 1003%Q 1997%Q)].
Defined.

(** ** What a returned shift is *)

Lemma calc_shift_skip_found_inv (refband : Band) (refgt : GeoTransform)
    (outa : ndarray) (outgt : GeoTransform) (skipw skipn skipe skips : Z)
    (shift : Q * Q) :
  let outnwxy := calc_xy outgt (inject_Z skipw) (inject_Z skipn) in
  calc_shift_skip refband refgt outa outgt skipw skipn skipe skips
  = Ok (Some shift) ->
  exists qc qr dc dr,
    calc_colrow refgt outnwxy.1 outnwxy.2 = (Finite qc, Finite qr)
    /\ (dc = 0 \/ dc = 1) /\ (dr = 0 \/ dr = 1)
    /\ consistent refband (trimmed outa skipw skipn skipe skips)
         (Qfloor qc + dc) (Qfloor qr + dr) = Ok true
    /\ shift = xy_sub (calc_xy refgt (inject_Z (Qfloor qc + dc))
                                     (inject_Z (Qfloor qr + dr))) outnwxy.
Proof.
  intros outnwxy Hres.
  destruct (calc_colrow refgt outnwxy.1 outnwxy.2) as [a b] eqn:Hcr.
  destruct a as [qc| |], b as [qr| |];
    try (unfold calc_shift_skip, mbind, result_bind in Hres;
         fold outnwxy in Hres; rewrite Hcr in Hres;
         cbn [fst snd int_floor] in Hres; discriminate).
  rewrite (calc_shift_skip_loop _ _ _ _ _ _ _ _ qc qr Hcr) in Hres.
  cbn [for_in fst snd] in Hres. rewrite !test_origin_consistent in Hres.
  fold outnwxy in Hres. exists qc, qr.
  destruct (consistent _ _ (Qfloor qc + 0) (Qfloor qr + 0)) as [[|]|?] eqn:H00;
    [exists 0, 0; injection Hres as <-; auto 10| |discriminate].
  destruct (consistent _ _ (Qfloor qc + 0) (Qfloor qr + 1)) as [[|]|?] eqn:H01;
    [exists 0, 1; injection Hres as <-; auto 10| |discriminate].
  destruct (consistent _ _ (Qfloor qc + 1) (Qfloor qr + 0)) as [[|]|?] eqn:H10;
    [exists 1, 0; injection Hres as <-; auto 10| |discriminate].
  destruct (consistent _ _ (Qfloor qc + 1) (Qfloor qr + 1)) as [[|]|?] eqn:H11;
    [exists 1, 1; injection Hres as <-; auto 10|discriminate|discriminate].
Qed.

(** X2: a shift that [calc_shift_skip] returns comes from a candidate origin
    in the 2 by 2 neighbourhood of the floored corner whose window was read
    and is consistent; and the transform with the shift added puts the
    corner of the trimmed tile exactly on that origin of the reference
    grid. *)
Theorem calc_shift_skip_sound (refband : Band) (refgt : GeoTransform)
    (outa : ndarray) (outgt : GeoTransform) (skipw skipn skipe skips : Z)
    (shift : Q * Q) :
  calc_shift_skip refband refgt outa outgt skipw skipn skipe skips
  = Ok (Some shift) ->
  exists qc qr dc dr,
    calc_colrow refgt (calc_xy outgt (inject_Z skipw) (inject_Z skipn)).1
                      (calc_xy outgt (inject_Z skipw) (inject_Z skipn)).2
    = (Finite qc, Finite qr)
    /\ (dc = 0 \/ dc = 1) /\ (dr = 0 \/ dr = 1)
    /\ consistent refband (trimmed outa skipw skipn skipe skips)
         (Qfloor qc + dc) (Qfloor qr + dr) = Ok true
    /\ xy_eq (calc_xy (add_shift outgt shift) (inject_Z skipw) (inject_Z skipn))
             (calc_xy refgt (inject_Z (Qfloor qc + dc))
                            (inject_Z (Qfloor qr + dr))).
Proof.
  intros Hres. apply calc_shift_skip_found_inv in Hres.
  destruct Hres as (qc & qr & dc & dr & Hcr & Hdc & Hdr & Hcons & ->).
  exists qc, qr, dc, dr. repeat (split; [assumption|]).
  unfold xy_eq, calc_xy, add_shift, xy_sub. cbn [fst snd gt0 gt1 gt2 gt3 gt4 gt5].
  split; ring.
Qed.

Lemma calc_shift_skip_sound_witness :
  exists qc qr dc dr,
    calc_colrow gt_ref (calc_xy gt_quarter 0 0).1 (calc_xy gt_quarter 0 0).2
    = (Finite qc, Finite qr)
    /\ (dc = 0 \/ dc = 1) /\ (dr = 0 \/ dr = 1)
    /\ consistent ref10 (trimmed (ReadAsArray tile4) 0 0 0 0)
         (Qfloor qc + dc) (Qfloor qr + dr) = Ok true
    /\ xy_eq (calc_xy (add_shift gt_quarter ((-1 # 4)%Q, (1 # 4)%Q)) 0 0)
             (calc_xy gt_ref (inject_Z (Qfloor qc + dc))
                             (inject_Z (Qfloor qr + dr))).
Proof.
  apply (calc_shift_skip_sound ref10 gt_ref (ReadAsArray tile4) gt_quarter
           0 0 0 0).
  vm_compute. reflexivity.
Defined.



(** ** The result of [calc_shift] *)

(** A found shift is the result of the trial whose margins the returned
    mask encodes bit by bit. *)
Lemma calc_shift_found_inv (refband : Band) (refgt : GeoTransform)
    (outband : Band) (outgt : GeoTransform)
    (s : option (Q * Q)) (m : option Z) :
  calc_shift refband refgt outband outgt = Ok (s, m) ->
  let outa := ReadAsArray outband in
  let skipwe := Z.of_nat (shape1 outa) / 3 in
  let skipns := Z.of_nat (shape0 outa) / 3 in
  (s = None /\ m = None) \/
  (exists shift mask,
      s = Some shift /\ m = Some mask /\ 0 <= mask <= 15
      /\ calc_shift_skip refband refgt outa outgt
           (if Z.testbit mask 0 then skipwe else 0)
           (if Z.testbit mask 1 then skipns else 0)
           (if Z.testbit mask 2 then skipwe else 0)
           (if Z.testbit mask 3 then skipns else 0)
         = Ok (Some shift)).
Proof.
  intros Hres outa skipwe skipns. unfold calc_shift in Hres.
  rewrite !Z.quot_div_nonneg in Hres by lia.
  fold outa skipwe skipns in Hres.
  clearbody skipwe skipns. revert Hres.
  generalize (calc_shift_skip refband refgt outa outgt). intros T Hres.
  repeat (match type of Hres with
          | context [T ?a ?b ?c ?d] =>
              destruct (T a b c d) as [[?|]|?] eqn:?
          end;
          [ injection Hres as <- <-; right; eexists _, _;
            split; [reflexivity|]; split; [reflexivity|];
            split; [vm_compute; split; discriminate|vm_compute; assumption]
          | | discriminate ]).
  injection Hres as <- <-. left. split; reflexivity.
Qed.

(** X6: [calc_shift] returns either no shift and no mask, or a shift with a
    mask between 0 and 15; never one without the other. The mask tells the
    margins of the trial that found the shift: bit 0 the west, bit 1 the
    north, bit 2 the east and bit 3 the south margin. *)
Theorem calc_shift_result_shape (refband : Band) (refgt : GeoTransform)
    (outband : Band) (outgt : GeoTransform)
    (s : option (Q * Q)) (m : option Z) :
  calc_shift refband refgt outband outgt = Ok (s, m) ->
  let outa := ReadAsArray outband in
  let skipwe := Z.of_nat (shape1 outa) / 3 in
  let skipns := Z.of_nat (shape0 outa) / 3 in
  (s = None <-> m = None)
  /\ (forall shift, s = Some shift ->
        exists mask,
          m = Some mask /\ 0 <= mask <= 15
          /\ calc_shift_skip refband refgt outa outgt
               (if Z.testbit mask 0 then skipwe else 0)
               (if Z.testbit mask 1 then skipns else 0)
               (if Z.testbit mask 2 then skipwe else 0)
               (if Z.testbit mask 3 then skipns else 0)
             = Ok (Some shift)).
Proof.
  intros Hres outa skipwe skipns.
  destruct (calc_shift_found_inv _ _ _ _ _ _ Hres)
    as [[-> ->] | (shift & mask & -> & -> & Hmask & Htrial)].
  - split; [tauto|]. discriminate.
  - split; [split; discriminate|].
    intros shift' [= <-]. exists mask. auto.
Qed.

Lemma calc_shift_result_shape_witness :
  calc_shift ref10 gt_ref tile4_west gt_tile = Ok (Some (0%Q, 0%Q), Some 1)
  /\ exists mask,
       Some 1 = Some mask /\ 0 <= mask <= 15
       /\ calc_shift_skip ref10 gt_ref (ReadAsArray tile4_west) gt_tile
            (if Z.testbit mask 0 then 4 / 3 else 0)
            (if Z.testbit mask 1 then 4 / 3 else 0)
            (if Z.testbit mask 2 then 4 / 3 else 0)
            (if Z.testbit mask 3 then 4 / 3 else 0)
          = Ok (Some (0%Q, 0%Q)).
Proof.
  assert (H : calc_shift ref10 gt_ref tile4_west gt_tile
              = Ok (Some (0%Q, 0%Q), Some 1)) by (vm_compute; reflexivity).
  split; [exact H|].
  exact (proj2 (calc_shift_result_shape ref10 gt_ref tile4_west gt_tile _ _ H)
           (0%Q, 0%Q) eq_refl).
Defined.

(** ** The trimmed array *)

Lemma take_all_rows {A} (n : nat) (l : list A) : length l = n -> take n l = l.
Proof. intros <-. apply firstn_all. Qed.

(** Taking a block commutes with reading the values of the samples. *)
Lemma rows_block (l : list (list uint8)) (a b c d : nat) :
  map (map uint8_val) (map (fun row => take a (drop b row)) (take c (drop d l)))
  = map (fun row => take a (drop b row))
      (take c (drop d (map (map uint8_val) l))).
Proof.
  rewrite skipn_map, firstn_map, !map_map. apply map_ext. intros row.
  rewrite skipn_map, firstn_map. reflexivity.
Qed.

(** X7: for margins that fit in the tile, the slices of line 47 cut
    [skipn] rows off the top, [skips] off the bottom, [skipw] columns off the
    left and [skipe] off the right: the trimmed array has
    [nrows - skipn - skips] rows of [ncols - skipw - skipe] samples and is
    that block of the tile. *)
Theorem trimmed_block (outa : ndarray) (skipw skipn skipe skips : Z) :
  wf_array outa ->
  0 <= skipw -> 0 <= skipn -> 0 <= skipe -> 0 <= skips ->
  skipw + skipe <= Z.of_nat (shape1 outa) ->
  skipn + skips <= Z.of_nat (shape0 outa) ->
  let ncols := Z.of_nat (shape1 outa) in
  let nrows := Z.of_nat (shape0 outa) in
  let t := trimmed outa skipw skipn skipe skips in
  Z.of_nat (shape1 t) = ncols - skipw - skipe
  /\ Z.of_nat (shape0 t) = nrows - skipn - skips
  /\ rows t
     = map (fun row => take (Z.to_nat (ncols - skipw - skipe))
                         (drop (Z.to_nat skipw) row))
         (take (Z.to_nat (nrows - skipn - skips))
            (drop (Z.to_nat skipn) (rows outa))).
Proof.
  intros [Hrows Hcols] Hw Hn He Hs Hwe Hns ncols nrows t.
  subst t. unfold trimmed. fold ncols nrows.
  destruct (Z.eqb_spec (skipw + skipn + skipe + skips) 0) as [Hz|Hnz].
  - assert (skipw = 0) as -> by lia. assert (skipn = 0) as -> by lia.
    assert (skipe = 0) as -> by lia. assert (skips = 0) as -> by lia.
    subst ncols nrows. rewrite !Z.sub_0_r, !Nat2Z.id.
    split; [reflexivity|]. split; [reflexivity|].
    change (Z.to_nat 0) with 0%nat. rewrite drop_0, (take_all_rows _ _ Hrows).
    clear Hrows. induction Hcols as [|row rest Hrow _ IH]; [reflexivity|].
    cbn [map]. rewrite <- IH, drop_0, (take_all_rows _ _ Hrow). reflexivity.
  - assert (Hcw : slice_index ncols skipw = skipw)
      by (unfold slice_index; destruct (Z.ltb_spec skipw 0); lia).
    assert (Hce : slice_index ncols (ncols - skipe) = ncols - skipe)
      by (unfold slice_index; destruct (Z.ltb_spec (ncols - skipe) 0); lia).
    assert (Hrn : slice_index nrows skipn = skipn)
      by (unfold slice_index; destruct (Z.ltb_spec skipn 0); lia).
    assert (Hrs : slice_index nrows (nrows - skips) = nrows - skips)
      by (unfold slice_index; destruct (Z.ltb_spec (nrows - skips) 0); lia).
    unfold rows at 1. cbn [slice2 shape0 shape1 data].
    unfold py_slice, slice_len.
    fold ncols nrows. rewrite Hcw, Hce, Hrn, Hrs.
    split; [lia|]. split; [lia|].
    replace (ncols - skipe - skipw) with (ncols - skipw - skipe) by lia.
    replace (nrows - skips - skipn) with (nrows - skipn - skips) by lia.
    apply rows_block.
Qed.

Lemma trimmed_block_witness :
  rows (trimmed (ReadAsArray tile4_west) 1 0 0 0) = replicate 4 [6; 6; 6]
  /\ Z.of_nat (shape1 (trimmed (ReadAsArray tile4_west) 1 0 0 0)) = 4 - 1 - 0.
Proof.
  assert (Hwf : wf_array (ReadAsArray tile4_west)).
  { split; [reflexivity|]. repeat constructor. }
  destruct (trimmed_block (ReadAsArray tile4_west) 1 0 0 0 Hwf
              ltac:(lia) ltac:(lia) ltac:(lia) ltac:(lia)
              ltac:(vm_compute; discriminate) ltac:(vm_compute; discriminate))
    as (Hcols & _ & Hrows).
  split; [|exact Hcols]. rewrite Hrows. reflexivity.
Defined.

(** X8: [calc_shift] never tests an empty array. For a tile with at least
    one row and one column, whichever edges a trial excludes with the
    margins [int(ncols/3)] and [int(nrows/3)], at least a third of the
    columns and of the rows is left. *)
Theorem calc_shift_margins_leave_a_third (outa : ndarray) (es : list Edge) :
  (0 < shape1 outa)%nat ->
  (0 < shape0 outa)%nat ->
  let skipwe := Z.quot (Z.of_nat (shape1 outa)) 3 in
  let skipns := Z.quot (Z.of_nat (shape0 outa)) 3 in
  let m := margin skipwe skipns es in
  let t := trimmed outa m.1.1.1 m.1.1.2 m.1.2 m.2 in
  (0 < shape1 t)%nat /\ (0 < shape0 t)%nat
  /\ (shape1 outa <= 3 * shape1 t)%nat
  /\ (shape0 outa <= 3 * shape0 t)%nat.
Proof.
  intros Hc Hr skipwe skipns m t.
  assert (Hwe : 0 <= skipwe /\ 3 * skipwe <= Z.of_nat (shape1 outa)).
  { subst skipwe. rewrite Z.quot_div_nonneg by lia.
    split; [apply Z.div_pos; lia|apply Z.mul_div_le; lia]. }
  assert (Hns : 0 <= skipns /\ 3 * skipns <= Z.of_nat (shape0 outa)).
  { subst skipns. rewrite Z.quot_div_nonneg by lia.
    split; [apply Z.div_pos; lia|apply Z.mul_div_le; lia]. }
  subst t m. unfold margin, trimmed. cbn [fst snd].
  clearbody skipwe skipns.
  assert (Hidx : forall n i, 0 <= i <= n -> slice_index n i = i)
    by (intros n i Hi; unfold slice_index; destruct (Z.ltb_spec i 0); lia).
  destruct (bool_decide (WEST ∈ es)), (bool_decide (NORTH ∈ es)),
    (bool_decide (EAST ∈ es)), (bool_decide (SOUTH ∈ es));
    match goal with
    | |- context [?a + ?b + ?c + ?d =? 0] =>
        destruct (Z.eqb_spec (a + b + c + d) 0)
    end;
    cbn [slice2 shape0 shape1]; unfold slice_len;
    rewrite ?Hidx by lia; lia.
Qed.

Lemma calc_shift_margins_leave_a_third_witness :
  (0 < shape1 (ReadAsArray tile4))%nat /\ (0 < shape0 (ReadAsArray tile4))%nat
  /\ (0 < shape1 (trimmed (ReadAsArray tile4) 1 1 1 1))%nat
  /\ (0 < shape0 (trimmed (ReadAsArray tile4) 1 1 1 1))%nat.
Proof.
  assert (Hc : (0 < shape1 (ReadAsArray tile4))%nat) by (vm_compute; lia).
  assert (Hr : (0 < shape0 (ReadAsArray tile4))%nat) by (vm_compute; lia).
  split; [exact Hc|]. split; [exact Hr|].
  destruct (calc_shift_margins_leave_a_third (ReadAsArray tile4)
              [WEST; NORTH; EAST; SOUTH] Hc Hr) as (H1 & H0 & _).
  split; [exact H1|exact H0].
Defined.

(** ** Consistency and element-wise agreement *)

Lemma pixel_pairs_first (P : Z -> Prop) (outa refouta : ndarray) :
  Forall (Forall P) (rows outa) ->
  Forall (fun p : Z * Z => P p.1) (pixel_pairs outa refouta).
Proof.
  unfold pixel_pairs. intros Hall. generalize (rows refouta).
  induction Hall as [|orow ro Hrow _ IH]; intros [|rrow rr];
    cbn [zip_with concat]; try constructor.
  apply Forall_app. split; [|apply IH].
  clear IH. revert rrow. induction Hrow as [|o orow Ho _ IHrow];
    intros [|r rrow]; cbn [zip_with]; constructor; [exact Ho|apply IHrow].
Qed.

Lemma filter_none (l : list (Z * Z)) :
  Forall (fun p : Z * Z => nodata <= p.1) l ->
  filter (fun p : Z * Z => p.1 < nodata) l = [].
Proof.
  induction 1 as [|p l Hp _ IH]; [reflexivity|].
  rewrite filter_cons_False by lia. exact IH.
Qed.

Lemma terms_matching (l : list (Z * Z)) :
  Forall (fun p : Z * Z => p.1 < nodata -> p.1 = p.2 + 1) l ->
  foldr Z.add 0
    (map (fun p : Z * Z => ((p.1 - 1) - p.2) mod 256)
       (filter (fun p : Z * Z => p.1 < nodata) l)) = 0.
Proof.
  induction 1 as [|p l Hp _ IH]; [reflexivity|].
  destruct (decide (p.1 < nodata)) as [Hlt|Hge].
  - rewrite filter_cons_True by exact Hlt. cbn [map foldr].
    rewrite IH, (Hp Hlt).
    replace (p.2 + 1 - 1 - p.2) with 0 by lia. reflexivity.
  - rewrite filter_cons_False by exact Hge. exact IH.
Qed.

(** X9: a window that agrees with the tile pixel by pixel (every pixel below
    255 is the reference pixel plus one) has sum zero; and when no pixel of
    the tile below 255 is smaller than the reference pixel plus one, a sum of
    zero is reached only by such a window, for a tile too small to wrap the
    64-bit accumulator: differences of one sign cannot cancel. *)
Theorem diffsum_zero_one_sided (outa refouta : ndarray) :
  (Forall (fun p : Z * Z => p.1 < 255 -> p.1 = p.2 + 1)
     (pixel_pairs outa refouta) ->
   diffsum outa refouta = 0)
  /\ (255 * Z.of_nat (length (pixel_pairs outa refouta)) < 2 ^ 64 ->
      Forall (fun p : Z * Z => p.1 < 255 -> p.2 + 1 <= p.1)
        (pixel_pairs outa refouta) ->
      diffsum outa refouta = 0 ->
      Forall (fun p : Z * Z => p.1 < 255 -> p.1 = p.2 + 1)
        (pixel_pairs outa refouta)).
Proof.
  split.
  - intros Hmatch. rewrite diffsum_wrapped. unfold wrapped_terms.
    rewrite (terms_matching _ Hmatch). reflexivity.
  - intros Hsafe Hside Hsum.
    apply (diffsum_zero_iff_match _ _ Hsafe) in Hsum.
    pose proof (pixel_pairs_bytes outa refouta) as Hbytes.
    rewrite Forall_forall in Hside, Hsum, Hbytes. apply Forall_forall.
    intros p Hin Hlt.
    specialize (Hside p Hin Hlt). specialize (Hsum p Hin Hlt).
    destruct (Hbytes p Hin) as [Ho Hr].
    rewrite Z.mod_small in Hsum by lia. exact Hsum.
Qed.

Lemma diffsum_zero_one_sided_witness :
  255 * Z.of_nat (length (pixel_pairs tile_nodata window_a)) < 2 ^ 64
  /\ Forall (fun p : Z * Z => p.1 < 255 -> p.2 + 1 <= p.1)
       (pixel_pairs tile_nodata window_a)
  /\ diffsum tile_nodata window_a = 0
  /\ Forall (fun p : Z * Z => p.1 < 255 -> p.1 = p.2 + 1)
       (pixel_pairs tile_nodata window_a).
Proof.
  assert (Hsafe : 255 * Z.of_nat (length (pixel_pairs tile_nodata window_a))
                  < 2 ^ 64) by (vm_compute; reflexivity).
  assert (Hpairs : pixel_pairs tile_nodata window_a
                   = [(6, 5); (255, 0); (255, 9); (4, 3)])
    by (vm_compute; reflexivity).
  assert (Hside : Forall (fun p : Z * Z => p.1 < 255 -> p.2 + 1 <= p.1)
                    (pixel_pairs tile_nodata window_a)).
  { rewrite Hpairs. repeat constructor; cbn; lia. }
  assert (Hsum : diffsum tile_nodata window_a = 0) by (vm_compute; reflexivity).
  split; [exact Hsafe|]. split; [exact Hside|]. split; [exact Hsum|].
  exact (proj2 (diffsum_zero_one_sided tile_nodata window_a) Hsafe Hside Hsum).
Defined.

(** X10: a tile that holds no pixel below 255 is consistent with every
    window. [calc_shift] then returns, with mask 0, the shift to the
    floored grid position of its corner as soon as the window there can be
    read, whatever the reference holds. *)
Theorem calc_shift_all_nodata (refband : Band) (refgt : GeoTransform)
    (outband : Band) (outgt : GeoTransform) (qc qr : Q) (refouta : ndarray) :
  Forall (Forall (fun o => 255 <= o)) (rows (ReadAsArray outband)) ->
  calc_colrow refgt (calc_xy outgt 0 0).1 (calc_xy outgt 0 0).2
  = (Finite qc, Finite qr) ->
  ReadAsArray_window refband (Qfloor qc) (Qfloor qr)
    (XSize outband) (YSize outband) = Ok refouta ->
  (forall a, diffsum (ReadAsArray outband) a = 0)
  /\ calc_shift refband refgt outband outgt
     = Ok (Some (xy_sub (calc_xy refgt (inject_Z (Qfloor qc))
                                       (inject_Z (Qfloor qr)))
                        (calc_xy outgt 0 0)),
           Some 0).
Proof.
  intros Hvoid Hcr Hread.
  assert (Hsum : forall a, diffsum (ReadAsArray outband) a = 0).
  { intros a. rewrite diffsum_wrapped. unfold wrapped_terms.
    rewrite (filter_none _ (pixel_pairs_first (fun o => nodata <= o) _ a Hvoid)).
    reflexivity. }
  split; [exact Hsum|].
  unfold calc_shift.
  rewrite (calc_shift_skip_loop refband refgt (ReadAsArray outband) outgt
             0 0 0 0 qc qr Hcr).
  cbn [for_in fst snd]. unfold test_origin, mbind, result_bind.
  cbn [fst snd]. rewrite !Z.add_0_r.
  change (shape1 (trimmed (ReadAsArray outband) 0 0 0 0)) with (XSize outband).
  change (shape0 (trimmed (ReadAsArray outband) 0 0 0 0)) with (YSize outband).
  rewrite Hread.
  change (trimmed (ReadAsArray outband) 0 0 0 0) with (ReadAsArray outband).
  rewrite Hsum. reflexivity.
Qed.

Lemma calc_shift_all_nodata_witness :
  Forall (Forall (fun o => 255 <= o)) (rows (ReadAsArray tile_void))
  /\ exists shift,
       calc_shift ref10 gt_ref tile_void gt_quarter = Ok (Some shift, Some 0).
Proof.
  assert (Hvoid : Forall (Forall (fun o => 255 <= o))
                    (rows (ReadAsArray tile_void))).
  { change (rows (ReadAsArray tile_void)) with (replicate 4 (replicate 4 255)).
    repeat constructor; lia. }
  split; [exact Hvoid|]. eexists.
  refine (proj2 (calc_shift_all_nodata ref10 gt_ref tile_void gt_quarter
                   _ _ _ Hvoid _ _)).
  - vm_compute. reflexivity.
  - vm_compute. reflexivity.
Defined.

(** ** [print_shift] and [shift] *)

(** X11: [print_shift] is a dry run of [shift]. It never changes a file and
    prints one line when it returns; it raises exactly when [shift] raises;
    and when both return, either both printed the same shift and overlap, or
    no shift was found, each printed its failure message and [shift] wrote
    no file. *)
Theorem print_shift_dry_run (refband : Band) (refgt : GeoTransform)
    (outfile newfile : string) (w : World) :
  (forall w', print_shift refband refgt outfile w = Ok w' ->
     files w' = files w /\ exists line, stdout w' = stdout w ++ [line])
  /\ (forall e, print_shift refband refgt outfile w = Raise e <->
                shift refband refgt outfile newfile w = Raise e)
  /\ (forall w1 w2,
        shift refband refgt outfile newfile w = Ok w1 ->
        print_shift refband refgt outfile w = Ok w2 ->
        (exists s overlap,
            stdout w2 = stdout w ++ [PrintShift s overlap]
            /\ stdout w1 = stdout w2)
        \/ (stdout w1 = stdout w ++ [PrintStr "Failed to shift"]
            /\ stdout w2 = stdout w ++ [PrintStr "Failed to calculate shift"]
            /\ files w1 = files w)).
Proof.
  unfold print_shift, shift, gdal_Open, mbind, result_bind.
  destruct (files w !! outfile) as [outrast|].
  - destruct (calc_shift refband refgt (GetRasterBand outrast)
                (GetGeoTransform outrast)) as [[[s|] m]|e]; cbn [fst snd].
    + split; [|split].
      * intros w' [= <-]. split; [reflexivity|]. eexists. reflexivity.
      * intros e. split; discriminate.
      * intros w1 w2 [= <-] [= <-]. left. eexists _, _. split; reflexivity.
    + split; [|split].
      * intros w' [= <-]. split; [reflexivity|]. eexists. reflexivity.
      * intros e. split; discriminate.
      * intros w1 w2 [= <-] [= <-]. right. repeat split.
    + split; [|split]; [discriminate|tauto|discriminate].
  - split; [|split]; [discriminate|tauto|discriminate].
Qed.

Lemma print_shift_dry_run_witness :
  exists w2,
    print_shift ref10 gt_ref "tile.tif" world0 = Ok w2
    /\ files w2 = files world0
    /\ exists line, stdout w2 = stdout world0 ++ [line].
Proof.
  eexists. split; [vm_compute; reflexivity|].
  apply (proj1 (print_shift_dry_run ref10 gt_ref "tile.tif" "new.tif" world0)).
  vm_compute. reflexivity.
Defined.

(** ** Margins that leave nothing *)

Lemma sum_no_columns (ro rr : list (list Z)) (b : Z) :
  Forall (fun row => row = []) ro ->
  np_sum (np_where (np_less ro nodata)
            (np_subtract (np_subtract_scalar ro 1) rr) b) = 0.
Proof.
  unfold np_sum, np_where, np_less, np_subtract, np_subtract_scalar.
  intros Hempty. revert rr.
  induction Hempty as [|row ro -> _ IH]; intros [|rrow rr]; try reflexivity.
  cbn [map zip_with concat app]. apply IH.
Qed.

(** X13: margins are not checked against the size of the tile. When the west
    and east margins together cover all columns (each within the tile), the
    trimmed array has no column, its sum against every window is zero, and
    [calc_shift_skip] reports the first candidate as a match as soon as its
    (empty) window can be read. *)
Theorem calc_shift_skip_margins_cover_tile (refband : Band)
    (refgt : GeoTransform) (outa : ndarray) (outgt : GeoTransform)
    (skipw skipn skipe skips : Z) (qc qr : Q) (refouta : ndarray) :
  0 <= skipw -> 0 <= skipe <= Z.of_nat (shape1 outa) ->
  Z.of_nat (shape1 outa) <= skipw + skipe ->
  skipw + skipn + skipe + skips <> 0 ->
  let t := trimmed outa skipw skipn skipe skips in
  let outnwxy := calc_xy outgt (inject_Z skipw) (inject_Z skipn) in
  calc_colrow refgt outnwxy.1 outnwxy.2 = (Finite qc, Finite qr) ->
  ReadAsArray_window refband (Qfloor qc) (Qfloor qr) 0 (shape0 t) = Ok refouta ->
  shape1 t = 0%nat
  /\ (forall a, diffsum t a = 0)
  /\ calc_shift_skip refband refgt outa outgt skipw skipn skipe skips
     = Ok (Some (xy_sub (calc_xy refgt (inject_Z (Qfloor qc))
                                       (inject_Z (Qfloor qr))) outnwxy)).
Proof.
  intros Hw He Hcover Hnz t outnwxy Hcr Hread.
  assert (Hlen : slice_len (shape1 outa) skipw (Z.of_nat (shape1 outa) - skipe)
                 = 0%nat).
  { unfold slice_len, slice_index.
    destruct (Z.ltb_spec (Z.of_nat (shape1 outa) - skipe) 0),
      (Z.ltb_spec skipw 0); lia. }
  assert (Ht : t = slice2 outa skipn (Z.of_nat (shape0 outa) - skips)
                     skipw (Z.of_nat (shape1 outa) - skipe)).
  { subst t. unfold trimmed.
    destruct (Z.eqb_spec (skipw + skipn + skipe + skips) 0); [lia|reflexivity]. }
  assert (Hcols : shape1 t = 0%nat) by (rewrite Ht; exact Hlen).
  assert (Hsum : forall a, diffsum t a = 0).
  { intros a. unfold diffsum, diffs. apply sum_no_columns.
    rewrite Ht. unfold rows. cbn [slice2 data]. rewrite map_map.
    apply Forall_forall. intros row Hin.
    apply list_elem_of_In, in_map_iff in Hin. destruct Hin as (row0 & <- & _).
    unfold py_slice. rewrite Hlen. reflexivity. }
  split; [exact Hcols|]. split; [exact Hsum|].
  rewrite (calc_shift_skip_loop _ _ _ _ _ _ _ _ qc qr Hcr).
  cbn [for_in fst snd]. unfold test_origin, mbind, result_bind.
  cbn [fst snd]. rewrite !Z.add_0_r. fold t. rewrite Hcols, Hread, Hsum.
  reflexivity.
Qed.

Lemma calc_shift_skip_margins_cover_tile_witness :
  shape1 (trimmed (ReadAsArray tile4_west) 2 0 2 0) = 0%nat
  /\ exists shift,
       calc_shift_skip ref10 gt_ref (ReadAsArray tile4_west) gt_tile 2 0 2 0
       = Ok (Some shift).
Proof.
  edestruct (calc_shift_skip_margins_cover_tile ref10 gt_ref
               (ReadAsArray tile4_west) gt_tile 2 0 2 0)
    as (Hcols & _ & Hres).
  - lia.
  - vm_compute. split; discriminate.
  - vm_compute. discriminate.
  - lia.
  - vm_compute. reflexivity.
  - vm_compute. reflexivity.
  - split; [exact Hcols|]. eexists. exact Hres.
Defined.
